(** * Dependency scraping of the naptha SDK ([naptha_sdk/scrape.py])

    A shallow embedding of the entry-file scanner [scrape_init], the symbol
    classifier [get_obj_dependencies], the inliner and partitioner
    [scrape_func] and the dependency sorter they call, together with the
    properties of the bundle they produce. *)

From stdpp Require Import gmap strings list pretty.
From Stdlib Require Import Ascii Relations.Relation_Operators.

Set Warnings "-register-all,-clear-no-such-hyp".
Open Scope string_scope.
Open Scope list_scope.
Open Scope stdpp_scope.
Open Scope nat_scope.

(** ** Python strings

    A Python [str] is carried as the bytes of its UTF-8 encoding.  On such
    texts the tests below, which compare bytes, agree with Python's, which
    compare code points. *)

(** [sub in s] on Python strings. *)
Fixpoint contains (sub s : string) : bool :=
  String.prefix sub s ||
  match s with
  | EmptyString => false
  | String _ s' => contains sub s'
  end.

(** [s.startswith(p)] and [s.endswith(p)]. *)
Definition startswith (p s : string) : bool := String.prefix p s.

Definition endswith (p s : string) : bool :=
  String.prefix (String.rev p) (String.rev s).

(** [sep.join(parts)]. *)
Fixpoint join (sep : string) (parts : list string) : string :=
  match parts with
  | [] => ""
  | [p] => p
  | p :: rest => p +:+ sep +:+ join sep rest
  end.

(** ** Exceptions and results *)

Inductive exn :=
| TypeError | AttributeError | OSError | KeyError | UnboundLocalError
| YAMLError | CyclicLocalDependency.

(** The outcome of a call: a value, a raised exception, or the exhaustion of
    the recursion budget of the model. *)
Inductive result (A : Type) :=
| Ok (a : A)
| Raise (e : exn)
| OutOfFuel.
Arguments Ok {A} a.
Arguments Raise {A} e.
Arguments OutOfFuel {A}.

#[global] Instance result_ret : MRet result := λ A a, Ok a.

#[global] Instance result_bind : MBind result := λ A B k r,
  match r with
  | Ok a => k a
  | Raise e => Raise e
  | OutOfFuel => OutOfFuel
  end.

(** ** Literal values *)

(** The value of an [ast.Constant], and of the [value] of a recorded
    constant.  Floats and the remaining literal kinds (bytes, complex,
    Ellipsis) are carried by the text [str] gives for them. *)
Inductive const :=
| CStr (s : string)
| CInt (z : Z)
| CBool (b : bool)
| CNone
| CFloat (repr : string)
| COther (repr : string).

(** [str(value)], as an f-string formats it. *)
Definition py_str_const (c : const) : string :=
  match c with
  | CStr s => s
  | CInt z => pretty z
  | CBool true => "True"
  | CBool false => "False"
  | CNone => "None"
  | CFloat r => r
  | COther r => r
  end.

(** [isinstance(value, str)]. *)
Definition is_str (c : const) : bool :=
  match c with CStr _ => true | _ => false end.

(** ** Recorded variables

    The dictionaries [scrape_init] and [get_obj_dependencies] build:
    ["type"] is ["call"], ["constant"] or ["union"].  A call carries
    ["keywords"] and ["values"] only when the call has keyword arguments. *)
Inductive variable :=
| VCall (target cls_name : string)
        (kwargs : option (list (option string) * list const))
| VConstant (target : string) (value : const)
| VUnion (target : string) (value : string).

Definition var_target (v : variable) : string :=
  match v with
  | VCall t _ _ => t
  | VConstant t _ => t
  | VUnion t _ => t
  end.

(** ** The syntax tree of the entry file *)

(** Expressions, as far as [scrape_init] looks into them.  [OtherExpr]
    stands for every other expression and carries its [ast.unparse] text. *)
Inductive expr :=
| Constant (value : const)
| Name (id : string)
| Attribute (value : expr) (attr : string)
| Call (func : expr) (args : list expr) (keywords : list (option string * expr))
| OtherExpr (unparsed : string).

(** Nodes of the tree as [ast.walk] sees them: an [ast.Assign], or any other
    node with its child nodes in the order of [ast.iter_child_nodes] (the
    module itself, [def], [class], [if], [for], [try], handlers, ...).  The
    children of an [Assign] are expressions, which contain no statement. *)
Inductive node :=
| Assign (targets : list expr) (value : expr)
| Other (children : list node).

Definition iter_child_nodes (n : node) : list node :=
  match n with
  | Assign _ _ => []
  | Other cs => cs
  end.

Fixpoint node_size (n : node) : nat :=
  match n with
  | Assign _ _ => 1
  | Other cs => S (sum_list (map node_size cs))
  end.

(** [ast.walk]: a queue of nodes to visit; each visited node is yielded and
    its children are appended to the queue (breadth first). *)
Fixpoint walk_queue (fuel : nat) (todo : list node) : list node :=
  match fuel, todo with
  | S fuel', n :: rest => n :: walk_queue fuel' (rest ++ iter_child_nodes n)
  | _, _ => []
  end.

Definition walk (tree : node) : list node :=
  walk_queue (node_size tree) [tree].

(** ** [scrape_init] *)

Fixpoint extract_value (value : expr) : const :=
  match value with
  | Constant v => v
  | Name id => CStr id
  | Attribute v attr => CStr (py_str_const (extract_value v) +:+ "." +:+ attr)
  | Call (Attribute v attr) _ _ =>
      CStr (py_str_const (extract_value v) +:+ "." +:+ attr +:+ "()")
  | Call (Name id) _ _ => CStr (id +:+ "()")
  | Call _ _ _ => CNone
  | OtherExpr u => CStr u
  end.

(** A Python [dict] with string keys: insertion ordered; assigning to a key
    that is present replaces its value in place. *)
Fixpoint dict_set {V} (k : string) (v : V) (d : list (string * V)) : list (string * V) :=
  match d with
  | [] => [(k, v)]
  | (k', v') :: d' =>
      if decide (k' = k) then (k, v) :: d' else (k', v') :: dict_set k v d'
  end.

Definition dict_values {V} (d : list (string * V)) : list V := map snd d.

Fixpoint dict_get {V} (k : string) (d : list (string * V)) : option V :=
  match d with
  | [] => None
  | (k', v) :: d' => if decide (k' = k) then Some v else dict_get k d'
  end.

(** The body of the loop over [node.targets]: what one target of an
    assignment writes into [unique_variables]. *)
Definition record_target (value : expr) (unique_variables : list (string * variable))
    (target : expr) : list (string * variable) :=
  match target with
  | Name id =>
      match value with
      | Call (Name cls) _ kws =>
          let data :=
            match kws with
            | [] => VCall id cls None
            | _ => VCall id cls (Some (map fst kws, map (λ kw, extract_value (snd kw)) kws))
            end in
          dict_set id data unique_variables
      | Constant c => dict_set id (VConstant id c) unique_variables
      | _ => unique_variables
      end
  | _ => unique_variables
  end.

(** The body of the loop over [ast.walk(tree)]. *)
Definition record_node (unique_variables : list (string * variable)) (n : node)
    : list (string * variable) :=
  match n with
  | Assign targets value => foldl (record_target value) unique_variables targets
  | Other _ => unique_variables
  end.

(** [scrape_init], on the parsed tree of the entry file. *)
Definition scrape_init (tree : node) : list variable :=
  dict_values (foldl record_node [] (walk tree)).

(** ** The running program, as reflection shows it *)

(** An object's identity, as membership in the [processed] set sees it. *)
Definition ref := nat.

(** [module.__file__]: no such attribute, [None], or a path (made absolute). *)
Inductive file_attr :=
| NoFile
| FileNone
| FilePath (abspath : string).

#[global] Instance file_attr_eq_dec : EqDecision file_attr.
Proof. solve_decision. Defined.

(** A member of [obj.__args__]: a class (which has [__name__] and
    [__module__]), another object with a [__name__], or an object without
    one, rendered by [str]. *)
Inductive type_arg :=
| ArgClass (name : string) (module : option string)
| ArgNamed (name : string)
| ArgOther (str : string).

Inductive kind :=
| KPrim       (* isinstance(obj, (int, str, float, bool)) *)
| KModule     (* inspect.ismodule(obj) *)
| KClass      (* inspect.isclass(obj) *)
| KFunction   (* inspect.isfunction(obj) *)
| KTypeVar    (* isinstance(obj, TypeVar) *)
| KOther.

#[global] Instance kind_eq_dec : EqDecision kind.
Proof. solve_decision. Defined.

(** What the code reads from an object.  An attribute that is absent is
    [None]; [py_module] is [Some None] when [__module__] is [None]. *)
Record pyobj := {
  py_type_name : string;                (* type(obj).__name__ *)
  py_kind : kind;
  py_hashable : bool;                   (* hash(obj) succeeds *)
  py_truthy : bool;                     (* bool(obj) *)
  py_str : string;                      (* str(obj) *)
  py_args : option (list type_arg);     (* obj.__args__ *)
  py_name : option string;              (* obj.__name__ *)
  py_module : option (option string);   (* obj.__module__ *)
  py_file : file_attr;                  (* obj.__file__ *)
  py_dict : list (string * ref);        (* obj.__dict__.items() *)
  py_globals : list (string * ref);     (* obj.__globals__.items() *)
  py_source : string + exn;             (* inspect.getsource(obj): the text, or the
                                           exception it raises *)
}.

(** YAML documents as [yaml.safe_load] returns them. *)
Inductive yaml :=
| YNull
| YBool (b : bool)
| YInt (z : Z)
| YFloat (repr : string)
| YStr (s : string)
| YSeq (items : list yaml)
| YMap (items : list (yaml * yaml)).

Record runtime := {
  rt_obj : ref → pyobj;
  rt_sys_modules : list (string * ref);       (* sys.modules *)
  rt_cwd : string;                            (* os.path.abspath(os.getcwd()) *)
  rt_cwd_name : string;                       (* Path.cwd().name *)
  rt_files : list (string * option yaml);     (* the paths that exist, with what
                                                 yaml.safe_load makes of them
                                                 (None when it raises) *)
  rt_repr_str : string → string;              (* repr of a str that has code points
                                                 above the ASCII range *)
}.

(** [os.path.join(a, b)] for a relative [b]. *)
Definition os_path_join (a b : string) : string :=
  if bool_decide (a = "") || endswith "/" a then a +:+ b else a +:+ "/" +:+ b.

Definition is_local_module (rt : runtime) (module : pyobj) : result bool :=
  match py_file module with
  | NoFile => Ok false
  | FileNone => Raise TypeError
  | FilePath module_path =>
      let current_dir := rt_cwd rt in
      if startswith current_dir module_path then
        let venv_dir := os_path_join current_dir ".venv" in
        if startswith venv_dir module_path then Ok false else Ok true
      else Ok false
  end.

(** ** Symbol references *)

Inductive import_type :=
| ImportStandard | ImportSelective | ImportVariable | ImportUnion.

#[global] Instance import_type_eq_dec : EqDecision import_type.
Proof. solve_decision. Defined.

(** The dictionaries collected in [modules]; a key that is not set is [None]
    ([mi_module] is also [None] when the value is Python's [None]). *)
Record module_info := {
  mi_name : string;
  mi_module : option string;
  mi_import_type : import_type;
  mi_is_local : bool;
  mi_source : option string;
  mi_import_needed : option bool;
}.

(** ** [get_obj_dependencies] *)

(** A [for] loop whose body may raise. *)
Fixpoint for_each {A S} (body : S → A → result S) (st : S) (l : list A) : result S :=
  match l with
  | [] => Ok st
  | a :: l' => st' ← body st a; for_each body st' l'
  end.

(** The loop state: [modules], [variables] and the shared [processed] set. *)
Definition scan_state : Type := list module_info * list variable * gset ref.

Definition arg_text (arg : type_arg) : string :=
  match arg with
  | ArgClass n _ => n
  | ArgNamed n => n
  | ArgOther s => s
  end.

Definition member_info (arg : type_arg) : option module_info :=
  match arg with
  | ArgClass n m =>
      Some {| mi_name := n; mi_module := m; mi_import_type := ImportSelective;
              mi_is_local := false; mi_source := None; mi_import_needed := None |}
  | _ => None
  end.

(** One iteration of the loop over [context_globals.items()].  [recurse] is
    the recursive call on the owning module's bindings. *)
Definition classify (rt : runtime)
    (recurse : list (string * ref) → string → gset ref → result scan_state)
    (fn_code : string) (st : scan_state) (binding : string * ref) : result scan_state :=
  let '(modules, variables, processed) := st in
  let '(name, r) := binding in
  let obj := rt_obj rt r in
  if negb (contains name fn_code) then Ok st
  else if negb (py_hashable obj) then Raise TypeError
  else if bool_decide (r ∈ processed) then Ok st
  else if startswith "__" name then Ok st
  else
    let processed := {[r]} ∪ processed in
    if contains "Union" (py_type_name obj) then
      match py_args obj with
      | None => Raise AttributeError
      | Some args =>
          let args_str := join ", " (map arg_text args) in
          Ok (modules ++ omap member_info args,
              variables ++ [VUnion name ("Union[" +:+ args_str +:+ "]")],
              processed)
      end
    else if bool_decide (py_kind obj = KPrim) then
      Ok (modules, variables ++ [VConstant name (CStr (py_str obj))], processed)
    else if bool_decide (py_kind obj = KModule) then
      match py_name obj with
      | None => Raise AttributeError
      | Some module_name =>
          is_local ← is_local_module rt obj;
          Ok (modules ++ [{| mi_name := name; mi_module := Some module_name;
                             mi_import_type := ImportStandard; mi_is_local := is_local;
                             mi_source := None; mi_import_needed := None |}],
              variables, processed)
      end
    else
      match py_module obj with
      | None => Raise AttributeError
      | Some obj_module =>
          match obj_module ≫= (λ n, dict_get n (rt_sys_modules rt)) with
          | None => Ok (modules, variables, processed)
          | Some mr =>
              let module := rt_obj rt mr in
              if negb (py_truthy module) then Ok (modules, variables, processed)
              else if negb (py_hashable module) then Raise TypeError
              else if bool_decide (mr ∈ processed) then Ok (modules, variables, processed)
              else
                is_local ← is_local_module rt module;
                let obj_info source :=
                  {| mi_name := name; mi_module := obj_module;
                     mi_import_type := ImportSelective; mi_is_local := is_local;
                     mi_source := source; mi_import_needed := None |} in
                if is_local then
                  if bool_decide (py_kind obj = KTypeVar) then
                    Ok (modules ++ [obj_info (Some "")], variables, processed)
                  else
                    match py_source obj with
                    | inr e => Raise e
                    | inl source =>
                        '(new_modules, new_variables, processed') ←
                          recurse (py_dict module) source processed;
                        Ok (modules ++ new_modules ++ [obj_info (Some source)],
                            variables ++ new_variables, processed')
                    end
                else Ok (modules ++ [obj_info None], variables, processed)
          end
      end.

(** [get_obj_dependencies]; [fuel] bounds the depth of the recursion.  The
    third component of the result is [processed] as the call leaves it. *)
Fixpoint get_obj_dependencies (fuel : nat) (rt : runtime)
    (context_globals : list (string * ref)) (fn_code : string)
    (processed : gset ref) : result scan_state :=
  match fuel with
  | 0 => OutOfFuel
  | S fuel' =>
      for_each (classify rt (get_obj_dependencies fuel' rt) fn_code)
               ([], [], processed) context_globals
  end.

(** ** The dependency sorter *)

(** Modelled from the spec: [extract_dependencies] of
    [naptha_sdk/module_manager.py], which is not among the sources.  For a
    local entry, the names of the other local entries that occur in its
    source text; an entry without source text mentions none. *)
Definition extract_dependencies (module : module_info) (modules : list module_info)
    : list string :=
  match mi_source module with
  | None => []
  | Some source =>
      map mi_name
        (filter (λ m, mi_name m ≠ mi_name module ∧ contains (mi_name m) source = true)
                modules)
  end.

(** The dependencies of a name in the graph; a name without entry has none. *)
Definition deps_of (dependencies : list (string * list string)) (name : string)
    : list string :=
  default [] (dict_get name dependencies).

Definition is_ready (dependencies : list (string * list string))
    (sorted : list module_info) (m : module_info) : bool :=
  forallb (λ dep, bool_decide (dep ∈ map mi_name sorted))
          (deps_of dependencies (mi_name m)).

(** The first entry, in discovery order, all of whose dependencies have been
    emitted, and the entries that remain. *)
Fixpoint pick_ready (dependencies : list (string * list string))
    (sorted unsorted : list module_info) : option (module_info * list module_info) :=
  match unsorted with
  | [] => None
  | m :: rest =>
      if is_ready dependencies sorted m then Some (m, rest)
      else '(x, rest') ← pick_ready dependencies sorted rest; Some (x, m :: rest')
  end.

Fixpoint sort_loop (fuel : nat) (dependencies : list (string * list string))
    (sorted unsorted : list module_info) : result (list module_info) :=
  match unsorted with
  | [] => Ok sorted
  | _ =>
      match fuel with
      | 0 => OutOfFuel
      | S fuel' =>
          match pick_ready dependencies sorted unsorted with
          | None => Raise CyclicLocalDependency
          | Some (m, rest) => sort_loop fuel' dependencies (sorted ++ [m]) rest
          end
      end
  end.

(** Modelled from the spec: [sort_modules] of [naptha_sdk/module_manager.py],
    which is not among the sources.  A stable topological sort: the first
    entry in discovery order whose dependencies have all been emitted is
    emitted next, until none remains; when entries remain and none can be
    emitted the sort fails with [CyclicLocalDependency]. *)
Definition sort_modules (modules : list module_info)
    (dependencies : list (string * list string)) : result (list module_info) :=
  sort_loop (length modules) dependencies [] modules.

(** ** [scrape_func] *)

(** The line boundaries of [str.splitlines]: line feed, vertical tab, form
    feed, carriage return (with a line feed that follows it), the file, group
    and record separators, and next line (U+0085), line separator (U+2028)
    and paragraph separator (U+2029), which take two and three bytes.
    [linebreak_len s] is the number of bytes of the boundary [s] starts with,
    [0] when it starts with none. *)
Definition linebreak_len (s : string) : nat :=
  match s with
  | EmptyString => 0
  | String c s1 =>
      let n := nat_of_ascii c in
      if bool_decide (n = 13) then
        match s1 with
        | String c1 _ => if bool_decide (nat_of_ascii c1 = 10) then 2 else 1
        | EmptyString => 1
        end
      else if bool_decide (n ∈ [10; 11; 12; 28; 29; 30]) then 1
      else if bool_decide (n = 194) then
        match s1 with
        | String c1 _ => if bool_decide (nat_of_ascii c1 = 133) then 2 else 0
        | EmptyString => 0
        end
      else if bool_decide (n = 226) then
        match s1 with
        | String c1 (String c2 _) =>
            if bool_decide (nat_of_ascii c1 = 128) &&
               bool_decide (nat_of_ascii c2 ∈ [168; 169])
            then 3 else 0
        | _ => 0
        end
      else 0
  end.

(** [s.splitlines()]; [cur] is the line being read, reversed, and [skip] the
    number of bytes of the boundary just met that are still to be passed. *)
Fixpoint splitlines_from (skip : nat) (cur : string) (s : string) : list string :=
  match s with
  | EmptyString => if bool_decide (cur = "") then [] else [String.rev cur]
  | String c s' =>
      match skip with
      | S skip' => splitlines_from skip' cur s'
      | 0 =>
          match linebreak_len s with
          | 0 => splitlines_from 0 (String c cur) s'
          | S skip' => String.rev cur :: splitlines_from skip' "" s'
          end
      end
  end.

Definition splitlines (s : string) : list string := splitlines_from 0 "" s.

(** The white space [str.strip] removes, the characters for which
    [str.isspace] holds: U+0009 to U+000D, U+001C to U+0020, U+0085, U+00A0,
    U+1680, U+2000 to U+200A, U+2028, U+2029, U+202F, U+205F and U+3000.
    [space_len s] is the number of bytes of the white space character [s]
    starts with, [0] when it starts with none. *)
Definition space_len (s : string) : nat :=
  match s with
  | EmptyString => 0
  | String c s1 =>
      let n := nat_of_ascii c in
      if bool_decide (n ∈ [9; 10; 11; 12; 13; 28; 29; 30; 31; 32]) then 1
      else
        match s1 with
        | EmptyString => 0
        | String c1 s2 =>
            let n1 := nat_of_ascii c1 in
            if bool_decide (n = 194) && bool_decide (n1 ∈ [133; 160]) then 2
            else
              match s2 with
              | EmptyString => 0
              | String c2 _ =>
                  let n2 := nat_of_ascii c2 in
                  if bool_decide (n = 225) && bool_decide (n1 = 154) && bool_decide (n2 = 128)
                  then 3
                  else if bool_decide (n = 226) && bool_decide (n1 = 128) &&
                          (bool_decide (128 ≤ n2 ≤ 138) || bool_decide (n2 ∈ [168; 169; 175]))
                  then 3
                  else if bool_decide (n = 226) && bool_decide (n1 = 129) && bool_decide (n2 = 159)
                  then 3
                  else if bool_decide (n = 227) && bool_decide (n1 = 128) && bool_decide (n2 = 128)
                  then 3
                  else 0
              end
        end
  end.

(** [s.lstrip()]; [skip] is the number of bytes of the white space character
    just met that are still to be passed. *)
Fixpoint lstrip_from (skip : nat) (s : string) : string :=
  match s with
  | EmptyString => ""
  | String _ s' =>
      match skip with
      | S skip' => lstrip_from skip' s'
      | 0 =>
          match space_len s with
          | 0 => s
          | S skip' => lstrip_from skip' s'
          end
      end
  end.

Definition lstrip (s : string) : string := lstrip_from 0 s.

(** [line.strip().startswith("@")]: what [strip] removes at the end of the
    line does not change the test. *)
Definition is_decorator_line (line : string) : bool := startswith "@" (lstrip line).

Definition strip_decorators (fn_code : string) : string :=
  join (String "010" "") (filter (λ line, is_decorator_line line = false) (splitlines fn_code)).

(** [repr] of a [str] of the ASCII range: double quotes when the text has a
    single quote and no double quote, single quotes otherwise; backslash,
    the quote and control characters are escaped. *)
Definition squote : ascii := "039".
Definition dquote : ascii := "034".
Definition backslash : ascii := "092".

Definition hex_digit (n : nat) : ascii :=
  nth n (String.list_ascii_of_string "0123456789abcdef") "0"%char.

Definition escape_char (quote c : ascii) : string :=
  let n := nat_of_ascii c in
  if bool_decide (c = backslash) then String backslash (String backslash "")
  else if bool_decide (c = quote) then String backslash (String quote "")
  else if bool_decide (n = 10) then String backslash "n"
  else if bool_decide (n = 13) then String backslash "r"
  else if bool_decide (n = 9) then String backslash "t"
  else if bool_decide (n < 32) || bool_decide (n = 127) then
    String backslash (String "x" (String (hex_digit (n / 16)) (String (hex_digit (n mod 16)) "")))
  else String c "".

Fixpoint escape_string (quote : ascii) (s : string) : string :=
  match s with
  | EmptyString => ""
  | String c s' => escape_char quote c +:+ escape_string quote s'
  end.

Definition ascii_repr (s : string) : string :=
  let quote :=
    if contains (String squote "") s && negb (contains (String dquote "") s)
    then dquote else squote in
  String quote (escape_string quote s +:+ String quote "").

Fixpoint is_ascii (s : string) : bool :=
  match s with
  | EmptyString => true
  | String c s' => bool_decide (nat_of_ascii c < 128) && is_ascii s'
  end.

(** [repr] of a [str].  Which code points above the ASCII range are escaped
    depends on the Unicode database of the runtime, which gives the text for
    a [str] that has any. *)
Definition py_repr_str (rt : runtime) (s : string) : string :=
  if is_ascii s then ascii_repr s else rt_repr_str rt s.

(** [repr] of a loaded YAML document. *)
Fixpoint py_repr (rt : runtime) (y : yaml) : string :=
  match y with
  | YNull => "None"
  | YBool true => "True"
  | YBool false => "False"
  | YInt z => pretty z
  | YFloat r => r
  | YStr s => py_repr_str rt s
  | YSeq items => "[" +:+ join ", " (map (py_repr rt) items) +:+ "]"
  | YMap items =>
      "{" +:+ join ", " (map (λ kv, py_repr rt (fst kv) +:+ ": " +:+ py_repr rt (snd kv)) items)
      +:+ "}"
  end.

(** [str] of a loaded YAML document, as an f-string formats it. *)
Definition py_str_yaml (rt : runtime) (y : yaml) : string :=
  match y with
  | YStr s => s
  | _ => py_repr rt y
  end.

Definition inlined (name : string) (module : option string) (kind : import_type)
    (line : string) (import_needed : option bool) : module_info :=
  {| mi_name := name; mi_module := module; mi_import_type := kind;
     mi_is_local := false; mi_source := Some line; mi_import_needed := import_needed |}.

Definition newline : string := String "010" "".

(** The text a keyword argument adds to the line of a call. *)
Definition keyword_text (kw : option string) (value : const) : string :=
  let kw_text := default "None" kw in
  if is_str value
  then kw_text +:+ "=" +:+ String dquote (py_str_const value +:+ String dquote ", ")
  else kw_text +:+ "=" +:+ py_str_const value +:+ ", ".

Definition call_line (target cls_name : string)
    (kwargs : option (list (option string) * list const)) : string :=
  target +:+ " = " +:+ cls_name +:+ "(" +:+
  match kwargs with
  | Some (keywords, values) =>
      String.concat "" (map (λ kv, keyword_text (fst kv) (snd kv)) (zip keywords values))
  | None => ""
  end +:+ ")" +:+ newline.

(** One iteration of the loop over [used_variables].  The state is [modules]
    and the local variable [class_info], which is unbound ([None]) until an
    iteration assigns it and keeps its value from one iteration to the next. *)
Definition inline_variable (rt : runtime) (context_globals : list (string * ref))
    (st : list module_info * option module_info) (used_variable : variable)
    : result (list module_info * option module_info) :=
  let '(modules, class_info) := st in
  match used_variable with
  | VConstant target value =>
      class_info ←
        (if is_str value && endswith ".yaml" (py_str_const value) then
           let full_path := "src/" +:+ rt_cwd_name rt +:+ "/" +:+ py_str_const value in
           match dict_get full_path (rt_files rt) with
           | Some (Some yaml_data) =>
               let line := target +:+ " = " +:+ py_str_yaml rt yaml_data +:+ newline in
               Ok (Some (inlined target None ImportVariable line None))
           | Some None => Raise YAMLError
           | None => Ok class_info
           end
         else
           let line := target +:+ " = " +:+ py_str_const value +:+ newline in
           Ok (Some (inlined target None ImportVariable line None)));
      match class_info with
      | None => Raise UnboundLocalError
      | Some info => Ok (modules ++ [info], class_info)
      end
  | VUnion target value =>
      let line := target +:+ " = " +:+ value +:+ newline in
      let info := inlined target None ImportUnion line None in
      Ok (modules ++ [info], Some info)
  | VCall target cls_name kwargs =>
      match dict_get cls_name context_globals with
      | None => Ok st
      | Some r =>
          let var_class := rt_obj rt r in
          if py_truthy var_class && bool_decide (py_kind var_class = KClass) then
            match py_module var_class with
            | None => Raise AttributeError
            | Some class_module =>
                match class_module ≫= (λ n, dict_get n (rt_sys_modules rt)) with
                | None => Raise KeyError
                | Some _ =>
                    let line := call_line target cls_name kwargs in
                    let import_needed :=
                      if existsb (λ m, bool_decide (mi_name m = cls_name)) modules
                      then Some false else None in
                    let info := inlined cls_name class_module ImportVariable line import_needed in
                    Ok (modules ++ [info], Some info)
                end
            end
          else Ok st
      end
  end.

(** The tuple [scrape_func] returns. *)
Record bundle := {
  fn_code : string;
  fn_name : string;
  local_modules : list module_info;
  selective_import_modules : list module_info;
  standard_import_modules : list module_info;
  variable_modules : list module_info;
  union_modules : list module_info;
}.

(** [func.__globals__] for a function, the bindings of the defining module
    for a class; the name stays unbound for anything else. *)
Definition context_globals_of (rt : runtime) (func : pyobj) : result (list (string * ref)) :=
  match py_kind func with
  | KFunction => Ok (py_globals func)
  | KClass =>
      match py_module func with
      | None => Raise AttributeError
      | Some func_module =>
          match func_module ≫= (λ n, dict_get n (rt_sys_modules rt)) with
          | None => Raise KeyError
          | Some mr => Ok (py_dict (rt_obj rt mr))
          end
      end
  | _ => Raise UnboundLocalError
  end.

(** The dictionary comprehension that builds the dependency graph. *)
Definition module_dependencies_of (local_modules : list module_info)
    : list (string * list string) :=
  foldl (λ d m, dict_set (mi_name m) (extract_dependencies m local_modules) d)
        [] local_modules.

(** Lines 228 to 237: the filter on the name, the sort of the local entries
    and the partition by kind. *)
Definition partition_modules (code name : string) (modules : list module_info)
    : result bundle :=
  let modules := filter (λ m, mi_name m ≠ "logger") modules in
  let local := filter (λ m, mi_is_local m = true) modules in
  let module_dependencies := module_dependencies_of local in
  sorted ← sort_modules local module_dependencies;
  Ok {| fn_code := code;
        fn_name := name;
        local_modules := sorted;
        selective_import_modules :=
          filter (λ m, mi_is_local m = false ∧ mi_import_type m = ImportSelective) modules;
        standard_import_modules := filter (λ m, mi_import_type m = ImportStandard) modules;
        variable_modules := filter (λ m, mi_import_type m = ImportVariable) modules;
        union_modules := filter (λ m, mi_import_type m = ImportUnion) modules |}.

(** Lines 148 to 165 of [scrape_func]: the code of the function without its
    decorator lines, its name, the bindings to inspect, the entries found by
    [get_obj_dependencies] and the variables that are used. *)
Definition collect_dependencies (fuel : nat) (rt : runtime) (func : ref)
    (variables : list variable)
    : result (string * string * list (string * ref) * list module_info * list variable) :=
  let f := rt_obj rt func in
  match py_source f with
  | inr e => Raise e
  | inl source =>
      match py_name f with
      | None => Raise AttributeError
      | Some name =>
          let code := strip_decorators source in
          let used_variables := filter (λ v, contains (var_target v) code = true) variables in
          context_globals ← context_globals_of rt f;
          '(modules, new_variables, _) ← get_obj_dependencies fuel rt context_globals code ∅;
          Ok (code, name, context_globals, modules, used_variables ++ new_variables)
      end
  end.

(** [scrape_func]; [fuel] is the budget handed to [get_obj_dependencies]. *)
Definition scrape_func (fuel : nat) (rt : runtime) (func : ref)
    (variables : list variable) : result bundle :=
  '(code, name, context_globals, modules, used_variables) ←
    collect_dependencies fuel rt func variables;
  '(modules, _) ← for_each (inline_variable rt context_globals) (modules, None) used_variables;
  partition_modules code name modules.

(** ** Specification vocabulary for the entry-file scanner *)

(** [subnode n tree]: [n] is [tree] or lies anywhere below it. *)
Inductive subnode : node → node → Prop :=
| subnode_here n : subnode n n
| subnode_below n c cs : c ∈ cs → subnode n c → subnode n (Other cs).

(** The entry one target of an assignment writes, if it writes one: what
    [record_target] leaves in a dictionary that was empty. *)
Definition target_write (value target : expr) : option (string * variable) :=
  match target with
  | Name id => (λ d, (id, snd d)) <$> head (record_target value [] target)
  | _ => None
  end.

(** The entries a node writes, in the order of its targets. *)
Definition node_writes (n : node) : list (string * variable) :=
  match n with
  | Assign targets value => omap (target_write value) targets
  | Other _ => []
  end.

(** Every entry written while the tree is walked, in the order of the walk. *)
Definition all_writes (tree : node) : list (string * variable) :=
  concat (map node_writes (walk tree)).

(** The top-level statements of the entry file: the children of the root. *)
Definition top_level (tree : node) : list node := iter_child_nodes tree.

(** [def f(): x = 1]: the only assignment is nested in a function body. *)
Definition nested_only : node :=
  Other [Other [Assign [Name "x"] (Constant (CInt 1))]].

(** [threshold = 1], [def f(): threshold = 2], [threshold = 3]. *)
Definition nested_and_top : node :=
  Other [Assign [Name "threshold"] (Constant (CInt 1));
         Other [Assign [Name "threshold"] (Constant (CInt 2))];
         Assign [Name "threshold"] (Constant (CInt 3))].

(** One assignment to a key of a dictionary. *)
Definition write {V} (d : list (string * V)) (kv : string * V) := dict_set kv.1 kv.2 d.

(** ** Specification vocabulary for the dependency sorter *)

Definition names (l : list module_info) : list string := map mi_name l.

(** The edges of the dependency graph [scrape_func] hands to the sorter. *)
Definition depends_on (local : list module_info) (a b : string) : Prop :=
  b ∈ deps_of (module_dependencies_of local) a.

Definition cyclic (local : list module_info) : Prop :=
  ∃ n, tc (depends_on local) n n.

Definition acyclic (local : list module_info) : Prop :=
  ∀ n, ¬ tc (depends_on local) n n.

(** The name of [d] occurs in the source text of [m]. *)
Definition mentions (m d : module_info) : Prop :=
  ∃ source, mi_source m = Some source ∧ contains (mi_name d) source = true.

Definition local_function (name source : string) : module_info :=
  {| mi_name := name; mi_module := Some "main"; mi_import_type := ImportSelective;
     mi_is_local := true; mi_source := Some source; mi_import_needed := None |}.

(** Two functions that call each other, and a chain of three. *)
Definition mutual : list module_info :=
  [local_function "ping" "def ping(): return pong()";
   local_function "pong" "def pong(): return ping()"].

Definition chain : list module_info :=
  [local_function "top" "def top(): return mid()";
   local_function "mid" "def mid(): return low()";
   local_function "low" "def low(): return 0"].

(** The position of the first occurrence of a name (the length of the list
    when there is none). *)
Fixpoint index_of (a : string) (l : list string) : nat :=
  match l with
  | [] => 0
  | x :: l' => if decide (x = a) then 0 else S (index_of a l')
  end.

(** The local entries [scrape_func] sorts. *)
Definition local_entries (modules : list module_info) : list module_info :=
  filter (λ m, mi_is_local m = true) (filter (λ m, mi_name m ≠ "logger") modules).

(** Every entry of a bundle. *)
Definition bundle_entries (b : bundle) : list module_info :=
  local_modules b ++ selective_import_modules b ++ standard_import_modules b ++
  variable_modules b ++ union_modules b.

(** ** Example programs

    [inspect.getsource] raises [TypeError] for an object that is not a
    module, a class, a function or the like, and [OSError] when it does not
    find the text of one that is. *)

(** An instance of [object]. *)
Definition plain_object : pyobj :=
  {| py_type_name := "object"; py_kind := KOther; py_hashable := true;
     py_truthy := true; py_str := "<object object>"; py_args := None;
     py_name := None; py_module := Some (Some "builtins"); py_file := NoFile;
     py_dict := []; py_globals := []; py_source := inr TypeError |}.

Definition module_object (name : string) (file : file_attr)
    (dict : list (string * ref)) : pyobj :=
  {| py_type_name := "module"; py_kind := KModule; py_hashable := true;
     py_truthy := true; py_str := "<module>"; py_args := None;
     py_name := Some name; py_module := None; py_file := file;
     py_dict := dict; py_globals := []; py_source := inr OSError |}.

Definition function_object (name module : string) (globals : list (string * ref))
    (source : option string) : pyobj :=
  {| py_type_name := "function"; py_kind := KFunction; py_hashable := true;
     py_truthy := true; py_str := "<function>"; py_args := None;
     py_name := Some name; py_module := Some (Some module); py_file := NoFile;
     py_dict := []; py_globals := globals;
     py_source := match source with Some text => inl text | None => inr OSError end |}.

Definition class_object (name module : string) : pyobj :=
  {| py_type_name := "type"; py_kind := KClass; py_hashable := true;
     py_truthy := true; py_str := "<class>"; py_args := None;
     py_name := Some name; py_module := Some (Some module); py_file := NoFile;
     py_dict := []; py_globals := []; py_source := inr OSError |}.

Definition str_object (s : string) : pyobj :=
  {| py_type_name := "str"; py_kind := KPrim; py_hashable := true;
     py_truthy := negb (bool_decide (s = "")); py_str := s; py_args := None;
     py_name := None; py_module := None; py_file := NoFile;
     py_dict := []; py_globals := []; py_source := inr TypeError |}.

Definition list_object : pyobj :=
  {| py_type_name := "list"; py_kind := KOther; py_hashable := false;
     py_truthy := false; py_str := "[]"; py_args := None;
     py_name := None; py_module := None; py_file := NoFile;
     py_dict := []; py_globals := []; py_source := inr TypeError |}.

Definition union_object (args : list type_arg) : pyobj :=
  {| py_type_name := "_UnionGenericAlias"; py_kind := KOther; py_hashable := true;
     py_truthy := true; py_str := "typing.Union"; py_args := Some args;
     py_name := None; py_module := Some (Some "typing"); py_file := NoFile;
     py_dict := []; py_globals := []; py_source := inr TypeError |}.

(** A project in [/home/user/proj] whose entry file [main.py] defines [run],
    which reads the constant [config_path].  The texts of the examples have
    no code point that [repr] escapes above the ASCII range. *)
Definition config_globals : list (string * ref) := [("run", 0)].

Definition config_heap (r : ref) : pyobj :=
  match r with
  | 0 => function_object "run" "main" config_globals
           (Some "def run(): return load(config_path, retries)")
  | 1 => module_object "main" (FilePath "/home/user/proj/main.py") config_globals
  | _ => plain_object
  end.

Definition config_rt (files : list (string * option yaml)) : runtime :=
  {| rt_obj := config_heap; rt_sys_modules := [("main", 1)];
     rt_cwd := "/home/user/proj"; rt_cwd_name := "proj"; rt_files := files;
     rt_repr_str := ascii_repr |}.

(** [config_path = "settings.yaml"] at the top of the entry file. *)
Definition config_variables : list variable :=
  scrape_init (Other [Assign [Name "config_path"] (Constant (CStr "settings.yaml"))]).

(** [retries = 3] before it. *)
Definition retries_variables : list variable :=
  scrape_init (Other [Assign [Name "retries"] (Constant (CInt 3));
                      Assign [Name "config_path"] (Constant (CStr "settings.yaml"))]).

(** [settings.yaml] with the content [x: 1]. *)
Definition settings_files : list (string * option yaml) :=
  [("src/proj/settings.yaml", Some (YMap [(YStr "x", YInt 1)]))].

Definition run_entry : module_info :=
  {| mi_name := "run"; mi_module := Some "main"; mi_import_type := ImportSelective;
     mi_is_local := true;
     mi_source := Some "def run(): return load(config_path, retries)";
     mi_import_needed := None |}.

Definition settings_bundle : bundle :=
  {| fn_code := "def run(): return load(config_path, retries)";
     fn_name := "run";
     local_modules := [run_entry];
     selective_import_modules := [];
     standard_import_modules := [];
     variable_modules :=
       [inlined "config_path" None ImportVariable ("config_path = {'x': 1}" +:+ newline) None];
     union_modules := [] |}.

(** A project whose entry function writes to a [logger] from the installed
    module [logging]. *)
Definition logger_globals : list (string * ref) := [("logger", 2); ("run", 0)].

Definition logger_heap (r : ref) : pyobj :=
  match r with
  | 0 => function_object "run" "main" logger_globals
           (Some "def run(): logger.info(1)")
  | 1 => module_object "main" (FilePath "/home/user/proj/main.py") logger_globals
  | 2 => {| py_type_name := "Logger"; py_kind := KOther; py_hashable := true;
            py_truthy := true; py_str := "<Logger main (INFO)>"; py_args := None;
            py_name := None; py_module := Some (Some "logging"); py_file := NoFile;
            py_dict := []; py_globals := []; py_source := inr TypeError |}
  | 3 => module_object "logging" (FilePath "/usr/lib/python3/logging/__init__.py") []
  | _ => plain_object
  end.

Definition logger_rt : runtime :=
  {| rt_obj := logger_heap; rt_sys_modules := [("main", 1); ("logging", 3)];
     rt_cwd := "/home/user/proj"; rt_cwd_name := "proj"; rt_files := [];
     rt_repr_str := ascii_repr |}.

Definition logger_bundle : bundle :=
  {| fn_code := "def run(): logger.info(1)";
     fn_name := "run";
     local_modules :=
       [{| mi_name := "run"; mi_module := Some "main"; mi_import_type := ImportSelective;
           mi_is_local := true; mi_source := Some "def run(): logger.info(1)";
           mi_import_needed := None |}];
     selective_import_modules := [];
     standard_import_modules := [];
     variable_modules := [];
     union_modules := [] |}.

(** [Payload = Union[TypeA, TypeB]] in the scope of a function that names it. *)
Definition payload_heap (r : ref) : pyobj :=
  match r with
  | 0 => union_object [ArgClass "TypeA" (Some "models"); ArgClass "TypeB" (Some "models")]
  | _ => plain_object
  end.

Definition payload_rt : runtime :=
  {| rt_obj := payload_heap; rt_sys_modules := [];
     rt_cwd := "/home/user/proj"; rt_cwd_name := "proj"; rt_files := [];
     rt_repr_str := ascii_repr |}.

(** The names and modules of the members that are classes. *)
Definition class_members (args : list type_arg) : list (string * option string) :=
  omap (λ arg, match arg with ArgClass n m => Some (n, m) | _ => None end) args.

Definition selective_external (member : string * option string) : module_info :=
  {| mi_name := fst member; mi_module := snd member; mi_import_type := ImportSelective;
     mi_is_local := false; mi_source := None; mi_import_needed := None |}.

(** ** Specification vocabulary for the classifier *)

(** What [get_obj_dependencies] returns to its caller: [modules] and
    [variables]. *)
Definition returned (r : result scan_state)
    : result (list module_info * list variable) :=
  '(modules, variables, _) ← r; Ok (modules, variables).

(** The scopes a call scans: the one it is given and, in the recursion,
    the bindings of loaded modules. *)
Definition scanned_scopes (rt : runtime) (g : list (string * ref))
    : list (list (string * ref)) :=
  g :: map (λ kv, py_dict (rt_obj rt (snd kv))) (rt_sys_modules rt).

(** What a local entry carries.  Its name is bound, in a scope that is
    scanned, to its object.  For a whole-module import the object is a
    module, whose [__name__] the entry records, and there is no source text.
    For a selective import the entry records the [__module__] of the object
    and carries the empty text when the object is a type variable, the
    definition text [inspect.getsource] gives for the object otherwise. *)
Definition local_entry_ok (rt : runtime) (g : list (string * ref)) (m : module_info)
    : Prop :=
  mi_is_local m = true →
  ∃ scope r,
    scope ∈ scanned_scopes rt g ∧ (mi_name m, r) ∈ scope ∧
    ((mi_import_type m = ImportStandard ∧ py_kind (rt_obj rt r) = KModule ∧
      py_name (rt_obj rt r) = mi_module m ∧ mi_source m = None) ∨
     (mi_import_type m = ImportSelective ∧
      py_module (rt_obj rt r) = Some (mi_module m) ∧
      ((py_kind (rt_obj rt r) = KTypeVar ∧ mi_source m = Some "") ∨
       (py_kind (rt_obj rt r) ≠ KTypeVar ∧
        ∃ source, py_source (rt_obj rt r) = inl source ∧ mi_source m = Some source)))).

(** The recursive call leaves in [processed] what it found there. *)
Definition grows (recurse : list (string * ref) → string → gset ref → result scan_state)
    : Prop :=
  ∀ g code p ms vs p', recurse g code p = Ok (ms, vs, p') → p ⊆ p'.

(** A project in [/home/user/proj] with a local module [helpers] and an
    installed module [lib]. *)
Definition typevar_object (name module : string) : pyobj :=
  {| py_type_name := "TypeVar"; py_kind := KTypeVar; py_hashable := true;
     py_truthy := true; py_str := "~" +:+ name; py_args := None;
     py_name := Some name; py_module := Some (Some module); py_file := NoFile;
     py_dict := []; py_globals := []; py_source := inr TypeError |}.

(** An instance of a class [cls] defined in [module]: it has the
    [__module__] of its class, and [inspect.getsource] raises [TypeError]
    for it. *)
Definition instance_object (cls module : string) : pyobj :=
  {| py_type_name := cls; py_kind := KOther; py_hashable := true;
     py_truthy := true; py_str := "<" +:+ module +:+ "." +:+ cls +:+ " object>";
     py_args := None; py_name := None; py_module := Some (Some module);
     py_file := NoFile; py_dict := []; py_globals := []; py_source := inr TypeError |}.

Definition helpers_dict : list (string * ref) := [("compute", 3); ("T", 4)].

Definition sample_heap (r : ref) : pyobj :=
  match r with
  | 0 => function_object "helper" "lib" [] None
  | 1 => module_object "lib" (FilePath "/usr/lib/python3/site-packages/lib.py") [("helper", 0)]
  | 2 => module_object "helpers" (FilePath "/home/user/proj/helpers.py") helpers_dict
  | 3 => function_object "compute" "helpers" helpers_dict (Some "def compute(x: T): return x")
  | 4 => typevar_object "T" "helpers"
  | 5 => function_object "broken" "helpers" helpers_dict None
  | 6 => list_object
  | 7 => function_object "report" "helpers" [("broken", 5)]
           (Some "def report(): return broken()")
  | 8 => instance_object "Gauge" "helpers"
  | _ => plain_object
  end.

Definition sample_rt : runtime :=
  {| rt_obj := sample_heap; rt_sys_modules := [("lib", 1); ("helpers", 2)];
     rt_cwd := "/home/user/proj"; rt_cwd_name := "proj"; rt_files := [];
     rt_repr_str := ascii_repr |}.

Definition compute_entry : module_info :=
  {| mi_name := "compute"; mi_module := Some "helpers"; mi_import_type := ImportSelective;
     mi_is_local := true; mi_source := Some "def compute(x: T): return x";
     mi_import_needed := None |}.

Definition typevar_entry : module_info :=
  {| mi_name := "T"; mi_module := Some "helpers"; mi_import_type := ImportSelective;
     mi_is_local := true; mi_source := Some ""; mi_import_needed := None |}.

Definition helpers_entry : module_info :=
  {| mi_name := "helpers"; mi_module := Some "helpers"; mi_import_type := ImportStandard;
     mi_is_local := true; mi_source := None; mi_import_needed := None |}.

Definition lib_entry : module_info :=
  {| mi_name := "lib"; mi_module := Some "lib"; mi_import_type := ImportStandard;
     mi_is_local := false; mi_source := None; mi_import_needed := None |}.

Definition helper_entry : module_info :=
  {| mi_name := "helper"; mi_module := Some "lib"; mi_import_type := ImportSelective;
     mi_is_local := false; mi_source := None; mi_import_needed := None |}.

(** A scope that binds the class [TypeA] of the installed module [models]
    as [A1] and as [A2], and the alias [Either = Union[TypeA, TypeB]]. *)
Definition alias_scope : list (string * ref) := [("A1", 1); ("A2", 1); ("Either", 2)].

Definition alias_heap (r : ref) : pyobj :=
  match r with
  | 1 => class_object "TypeA" "models"
  | 2 => union_object [ArgClass "TypeA" (Some "models"); ArgClass "TypeB" (Some "models")]
  | 3 => module_object "models" (FilePath "/usr/lib/python3/site-packages/models.py")
           [("TypeA", 1)]
  | _ => plain_object
  end.

Definition alias_rt : runtime :=
  {| rt_obj := alias_heap; rt_sys_modules := [("models", 3)];
     rt_cwd := "/home/user/proj"; rt_cwd_name := "proj"; rt_files := [];
     rt_repr_str := ascii_repr |}.

(** The recursive call of line 121: for a binding the loop body inspects,
    the loaded module whose bindings the call scans and the definition text
    it scans them for, when the body gets that far ([None] when it does
    not: the name starts with two underscores, the object is a union, a
    literal, a module or a type variable, or its module is not loaded, not
    truthy or not local, or its text cannot be retrieved). *)
Definition expands (rt : runtime) (name : string) (o : pyobj) : option (ref * string) :=
  if startswith "__" name then None
  else if contains "Union" (py_type_name o) then None
  else if bool_decide (py_kind o = KPrim) then None
  else if bool_decide (py_kind o = KModule) then None
  else
    match py_module o with
    | Some (Some module_name) =>
        match dict_get module_name (rt_sys_modules rt) with
        | Some mr =>
            if py_truthy (rt_obj rt mr) then
              match is_local_module rt (rt_obj rt mr) with
              | Ok true =>
                  if bool_decide (py_kind o = KTypeVar) then None
                  else
                    match py_source o with
                    | inl source => Some (mr, source)
                    | inr _ => None
                    end
              | _ => None
              end
            else None
        | None => None
        end
    | _ => None
    end.

(** The scopes and texts the calls scan: the scope and text the first call
    is given and, from a binding of a scanned scope whose name occurs in the
    scanned text, the bindings of the module and the text of [expands]. *)
Inductive scanned (rt : runtime) (g : list (string * ref)) (code : string)
    : list (string * ref) → string → Prop :=
| scanned_first : scanned rt g code g code
| scanned_next scope text name r mr source :
    scanned rt g code scope text →
    (name, r) ∈ scope →
    contains name text = true →
    expands rt name (rt_obj rt r) = Some (mr, source) →
    scanned rt g code (py_dict (rt_obj rt mr)) source.

(** What the loop body needs of a binding whose name occurs in the scanned
    text, so as not to raise.  The object is hashable.  Unless the name
    starts with two underscores: a union has [__args__]; a module has a
    [__name__] and a [__file__] that is not [None]; any other object that
    is not a literal has a [__module__] and, when that module is loaded and
    truthy, the module is hashable, its [__file__] is not [None] and, when
    it is local and the object is not a type variable, the definition text
    of the object can be retrieved. *)
Definition binding_ok (rt : runtime) (name : string) (o : pyobj) : bool :=
  py_hashable o &&
  (startswith "__" name ||
   if contains "Union" (py_type_name o) then bool_decide (is_Some (py_args o))
   else if bool_decide (py_kind o = KPrim) then true
   else if bool_decide (py_kind o = KModule) then
     bool_decide (is_Some (py_name o)) && negb (bool_decide (py_file o = FileNone))
   else
     match py_module o with
     | None => false
     | Some obj_module =>
         match obj_module ≫= (λ n, dict_get n (rt_sys_modules rt)) with
         | None => true
         | Some mr =>
             let module := rt_obj rt mr in
             negb (py_truthy module) ||
             (py_hashable module &&
              match is_local_module rt module with
              | Ok true =>
                  bool_decide (py_kind o = KTypeVar) ||
                  match py_source o with inl _ => true | inr _ => false end
              | Ok false => true
              | _ => false
              end)
         end
     end).

(** The objects bound in the scope a call is given and in the loaded
    modules, which bound the depth of the recursion. *)
Definition inspected (rt : runtime) (g : list (string * ref)) : list ref :=
  map snd g ++
  concat (map (λ kv, map snd (py_dict (rt_obj rt (snd kv)))) (rt_sys_modules rt)).

(** A list of scopes and texts holds every scope and text that is scanned,
    and every binding the loop body inspects there is as it needs. *)
Definition scans_closed (rt : runtime) (scans : list (list (string * ref) * string)) : bool :=
  forallb (λ scan,
    forallb (λ binding,
      negb (contains (fst binding) (snd scan)) ||
      (binding_ok rt (fst binding) (rt_obj rt (snd binding)) &&
       match expands rt (fst binding) (rt_obj rt (snd binding)) with
       | Some (mr, source) => bool_decide ((py_dict (rt_obj rt mr), source) ∈ scans)
       | None => true
       end))
      (fst scan))
    scans.

(** A project whose modules bind, as every module does, [__name__],
    [__doc__] and [__builtins__]: a text, [None] and a dictionary, which
    cannot be hashed. *)
Definition none_object : pyobj :=
  {| py_type_name := "NoneType"; py_kind := KOther; py_hashable := true;
     py_truthy := false; py_str := "None"; py_args := None;
     py_name := None; py_module := None; py_file := NoFile;
     py_dict := []; py_globals := []; py_source := inr TypeError |}.

Definition dict_object : pyobj :=
  {| py_type_name := "dict"; py_kind := KOther; py_hashable := false;
     py_truthy := true; py_str := "{...}"; py_args := None;
     py_name := None; py_module := None; py_file := NoFile;
     py_dict := []; py_globals := []; py_source := inr TypeError |}.

Definition app_dict : list (string * ref) :=
  [("__name__", 10); ("__doc__", 11); ("__builtins__", 12);
   ("tools", 2); ("scale", 3); ("entry", 4)].

Definition tools_dict : list (string * ref) :=
  [("__name__", 13); ("__doc__", 11); ("__builtins__", 12);
   ("UNIT", 5); ("scale", 3)].

Definition app_heap (r : ref) : pyobj :=
  match r with
  | 1 => module_object "app" (FilePath "/home/user/proj/app.py") app_dict
  | 2 => module_object "tools" (FilePath "/home/user/proj/tools.py") tools_dict
  | 3 => function_object "scale" "tools" tools_dict
           (Some "def scale(x): return str(x) + UNIT if x else scale(1)")
  | 4 => function_object "entry" "app" app_dict
           (Some "def entry(x): return scale(x) if __name__ else 0")
  | 5 => str_object "cm"
  | 10 => str_object "app"
  | 11 => none_object
  | 12 => dict_object
  | 13 => str_object "tools"
  | _ => plain_object
  end.

Definition app_rt : runtime :=
  {| rt_obj := app_heap; rt_sys_modules := [("app", 1); ("tools", 2)];
     rt_cwd := "/home/user/proj"; rt_cwd_name := "proj"; rt_files := [];
     rt_repr_str := ascii_repr |}.

(** ** Entries that share a name *)

(** The dependency relation of the spec, on the entries themselves: [d] is
    a local entry of another name, and its name occurs in the source text
    of [m]. *)
Definition refers (local : list module_info) (m d : module_info) : Prop :=
  m ∈ local ∧ d ∈ local ∧ mi_name d ≠ mi_name m ∧ mentions m d.

(** A project whose entry file [main.py] imports [work] from the local
    module [pkg] and defines [helper] and [run]; [pkg] has a [helper] of its
    own, which [work] calls.  [helper_source] is the text of [pkg.helper]. *)
Definition shadow_main_dict : list (string * ref) :=
  [("work", 4); ("helper", 5); ("run", 6)].

Definition shadow_pkg_dict : list (string * ref) :=
  [("helper", 3); ("work", 4)].

Definition shadow_heap (helper_source : string) (r : ref) : pyobj :=
  match r with
  | 1 => module_object "main" (FilePath "/home/user/proj/main.py") shadow_main_dict
  | 2 => module_object "pkg" (FilePath "/home/user/proj/pkg.py") shadow_pkg_dict
  | 3 => function_object "helper" "pkg" shadow_pkg_dict (Some helper_source)
  | 4 => function_object "work" "pkg" shadow_pkg_dict (Some "def work(): return helper()")
  | 5 => function_object "helper" "main" shadow_main_dict (Some "def helper(): return 1")
  | 6 => function_object "run" "main" shadow_main_dict
           (Some "def run(): return work() + helper()")
  | _ => plain_object
  end.

Definition shadow_rt (helper_source : string) : runtime :=
  {| rt_obj := shadow_heap helper_source; rt_sys_modules := [("main", 1); ("pkg", 2)];
     rt_cwd := "/home/user/proj"; rt_cwd_name := "proj"; rt_files := [];
     rt_repr_str := ascii_repr |}.

Definition local_entry (name module source : string) : module_info :=
  {| mi_name := name; mi_module := Some module; mi_import_type := ImportSelective;
     mi_is_local := true; mi_source := Some source; mi_import_needed := None |}.

(** The local entries of [run], as they are found, with the text of
    [pkg.helper]. *)
Definition shadow_entries (helper_source : string) : list module_info :=
  [local_entry "helper" "pkg" helper_source;
   local_entry "work" "pkg" "def work(): return helper()";
   local_entry "helper" "main" "def helper(): return 1";
   local_entry "run" "main" "def run(): return work() + helper()"].

(** The place of an entry of [shadow_entries] in an order that follows the
    source texts. *)
Definition shadow_rank (m : module_info) : nat :=
  if bool_decide (mi_name m = "run") then 2
  else if bool_decide (mi_name m = "work") then 1
  else 0.

(** ** Further vocabulary for the entry-file scanner *)

(** The dotted name [first.a.b...], as the parser builds it. *)
Definition dotted (first : string) (rest : list string) : expr :=
  foldl Attribute (Name first) rest.

(** [threshold = 1] and later [threshold = 2], with a statement between. *)
Definition reassigned : node :=
  Other [Assign [Name "threshold"] (Constant (CInt 1));
         Other [];
         Assign [Name "threshold"] (Constant (CInt 2))].

(** ** Further vocabulary for the classifier *)

(** The objects bound in the modules that are loaded. *)
Definition module_refs (rt : runtime) : gset ref :=
  list_to_set (concat (map (λ kv, map snd (py_dict (rt_obj rt (snd kv))))
                           (rt_sys_modules rt))).

(** What the classifier can put in [modules] and in [variables]. *)
Definition classifier_entry (m : module_info) : Prop :=
  (mi_import_type m = ImportStandard ∨ mi_import_type m = ImportSelective) ∧
  mi_import_needed m = None ∧
  (mi_is_local m = false → mi_source m = None).

Definition classifier_variable (v : variable) : Prop :=
  (∃ target text, v = VConstant target (CStr text)) ∨
  (∃ target value, v = VUnion target value).

(** ** Further examples *)

(** An entry file with [cfg = Config(path="a.yaml", retries=3)] and
    [tool = make_tool()], whose function [run] uses both. *)
Definition call_globals : list (string * ref) :=
  [("run", 0); ("Config", 2); ("make_tool", 3)].

Definition call_heap (r : ref) : pyobj :=
  match r with
  | 0 => function_object "run" "main" call_globals
           (Some "def run(): return tool(cfg.load())")
  | 1 => module_object "main" (FilePath "/home/user/proj/main.py") call_globals
  | 2 => class_object "Config" "main"
  | 3 => function_object "make_tool" "main" call_globals
           (Some "def make_tool(): return print")
  | _ => plain_object
  end.

Definition call_rt : runtime :=
  {| rt_obj := call_heap; rt_sys_modules := [("main", 1)];
     rt_cwd := "/home/user/proj"; rt_cwd_name := "proj"; rt_files := [];
     rt_repr_str := ascii_repr |}.

Definition call_variables : list variable :=
  scrape_init
    (Other [Assign [Name "cfg"]
              (Call (Name "Config") []
                 [(Some "path", Constant (CStr "a.yaml")); (Some "retries", Constant (CInt 3))]);
            Assign [Name "tool"] (Call (Name "make_tool") [] [])]).

Definition call_run_entry : module_info :=
  {| mi_name := "run"; mi_module := Some "main"; mi_import_type := ImportSelective;
     mi_is_local := true; mi_source := Some "def run(): return tool(cfg.load())";
     mi_import_needed := None |}.

Definition call_entry : module_info :=
  inlined "Config" (Some "main") ImportVariable
    (call_line "cfg" "Config"
       (Some ([Some "path"; Some "retries"], [CStr "a.yaml"; CInt 3]))) None.

Definition call_bundle : bundle :=
  {| fn_code := "def run(): return tool(cfg.load())";
     fn_name := "run";
     local_modules := [call_run_entry];
     selective_import_modules := [];
     standard_import_modules := [];
     variable_modules := [call_entry];
     union_modules := [] |}.

(** The bundle of [run] with [retries = 3] and the settings file. *)
Definition retries_bundle : bundle :=
  {| fn_code := "def run(): return load(config_path, retries)";
     fn_name := "run";
     local_modules := [run_entry];
     selective_import_modules := [];
     standard_import_modules := [];
     variable_modules :=
       [inlined "retries" None ImportVariable ("retries = 3" +:+ newline) None;
        inlined "config_path" None ImportVariable ("config_path = {'x': 1}" +:+ newline) None];
     union_modules := [] |}.

(** No line boundary starts within the text [l] when [rest] follows it, and
    none within [l] alone. *)
Fixpoint no_linebreak_before (rest l : string) : bool :=
  match l with
  | EmptyString => true
  | String c l' =>
      bool_decide (linebreak_len (String c l' +:+ rest) = 0) && no_linebreak_before rest l'
  end.

Definition no_linebreak (l : string) : bool := no_linebreak_before "" l.

(** U+2028, the line separator, and U+00A0, the no-break space. *)
Definition line_separator : string := String "226" (String "128" (String "168" "")).

Definition no_break_space : string := String "194" (String "160" "").

(** ** [scrape_func_params] *)

(** A parameter of [inspect.signature(func)]: its name, its default and its
    annotation, each [None] when it is [Parameter.empty]. *)
Record parameter := {
  param_name : string;
  param_default : option const;
  param_annotation : option const;
}.

(** The dictionary recorded for a parameter; an absent value is Python's
    [None]. *)
Record param_info := {
  pi_value : const;
  pi_type : const;
}.

Definition param_info_of (param : parameter) : param_info :=
  {| pi_value := default CNone (param_default param);
     pi_type := default CNone (param_annotation param) |}.

(** [scrape_func_params], on the parameters of the signature in their
    order. *)
Definition scrape_func_params (parameters : list parameter)
    : list (string * param_info) :=
  foldl (λ params param,
           if bool_decide (param_name param ≠ "self")
           then dict_set (param_name param) (param_info_of param) params
           else params)
        [] parameters.

(** A parameter with a default or an annotation of [None] written as one
    without. *)
Definition without_none (param : parameter) : parameter :=
  {| param_name := param_name param;
     param_default := match param_default param with Some CNone => None | d => d end;
     param_annotation := match param_annotation param with Some CNone => None | a => a end |}.

(** [def call(self, prompt: str, retries=3, stop=None)]. *)
Definition call_signature : list parameter :=
  [{| param_name := "self"; param_default := None; param_annotation := None |};
   {| param_name := "prompt"; param_default := None;
      param_annotation := Some (COther "<class 'str'>") |};
   {| param_name := "retries"; param_default := Some (CInt 3); param_annotation := None |};
   {| param_name := "stop"; param_default := Some CNone; param_annotation := None |}].

(** ** Parameters of the command line *)

(** [s.split(sep)] for a separator of one character. *)
Fixpoint split_on (sep : ascii) (s : string) : list string :=
  match s with
  | EmptyString => [""]
  | String c s' =>
      if bool_decide (c = sep) then "" :: split_on sep s'
      else match split_on sep s' with
           | piece :: pieces => String c piece :: pieces
           | [] => [String c ""]
           end
  end.

(** The loop [for param in params: key, value = param.split('=');
    parsed_params[key] = value] of the command line, on the words
    [shlex.split] returns; [None] is the [ValueError] the unpacking raises. *)
Fixpoint parse_params_from (parsed_params : list (string * string)) (params : list string)
    : option (list (string * string)) :=
  match params with
  | [] => Some parsed_params
  | param :: rest =>
      match split_on "=" param with
      | [key; value] => parse_params_from (dict_set key value parsed_params) rest
      | _ => None
      end
  end.

Definition parse_params (params : list string) : option (list (string * string)) :=
  parse_params_from [] params.

(** The number of occurrences of a character. *)
Fixpoint count_char (sep : ascii) (s : string) : nat :=
  match s with
  | EmptyString => 0
  | String c s' => (if bool_decide (c = sep) then 1 else 0) + count_char sep s'
  end.

(** * Properties *)

(** ** The entry-file scanner *)

Lemma node_size_pos n : 0 < node_size n.
Proof. destruct n; simpl; lia. Qed.

Lemma sum_sizes_length (l : list node) : length l ≤ sum_list (map node_size l).
Proof.
  induction l as [|n l IH]; simpl; [lia|].
  pose proof (node_size_pos n). lia.
Qed.

Lemma node_size_children n :
  node_size n = S (sum_list (map node_size (iter_child_nodes n))).
Proof. destruct n; reflexivity. Qed.

Lemma sum_list_map_app (f : node → nat) l1 l2 :
  sum_list (map f (l1 ++ l2)) = sum_list (map f l1) + sum_list (map f l2).
Proof. rewrite map_app, sum_list_with_app. reflexivity. Qed.

Lemma subnode_inv n t :
  subnode n t → n = t ∨ ∃ c, c ∈ iter_child_nodes t ∧ subnode n c.
Proof. intros H. inversion H; subst; [by left|right]. simpl. eauto. Qed.

(** With a budget of the size of the queue, the walk reaches every node. *)
Lemma walk_queue_complete fuel : ∀ todo n t,
  sum_list (map node_size todo) ≤ fuel →
  t ∈ todo → subnode n t → n ∈ walk_queue fuel todo.
Proof.
  induction fuel as [|fuel IH]; intros todo n t Hsize Ht Hsub.
  - destruct todo as [|t0 rest]; [by apply elem_of_nil in Ht|].
    simpl in Hsize. pose proof (node_size_pos t0). lia.
  - destruct todo as [|t0 rest]; [by apply elem_of_nil in Ht|].
    simpl. simpl in Hsize. rewrite node_size_children in Hsize.
    assert (Hfuel : sum_list (map node_size (rest ++ iter_child_nodes t0)) ≤ fuel).
    { rewrite sum_list_map_app. lia. }
    apply elem_of_cons in Ht as [->|Ht].
    + apply subnode_inv in Hsub as [->|(c & Hc & Hsub)]; [by left|].
      right. apply (IH _ n c); [done| |done]. apply elem_of_app. by right.
    + right. apply (IH _ n t); [done| |done]. apply elem_of_app. by left.
Qed.

(** With that budget the queue is emptied: every node is yielded once. *)
Lemma walk_queue_length fuel : ∀ todo,
  sum_list (map node_size todo) ≤ fuel →
  length (walk_queue fuel todo) = sum_list (map node_size todo).
Proof.
  induction fuel as [|fuel IH]; intros todo Hsize.
  - destruct todo as [|t0 rest]; [done|].
    simpl in Hsize. pose proof (node_size_pos t0). lia.
  - destruct todo as [|t0 rest]; [done|].
    simpl. simpl in Hsize. rewrite node_size_children in *.
    rewrite IH; rewrite sum_list_map_app; lia.
Qed.

(** The nodes at the head of the queue are yielded first, in order. *)
Lemma walk_queue_prefix cs : ∀ fuel q,
  length cs ≤ fuel →
  walk_queue fuel (cs ++ q) =
  cs ++ walk_queue (fuel - length cs) (q ++ concat (map iter_child_nodes cs)).
Proof.
  induction cs as [|c cs IH]; intros fuel q Hlen; simpl.
  - by rewrite Nat.sub_0_r, app_nil_r.
  - destruct fuel as [|fuel]; simpl in *; [lia|].
    f_equal. rewrite <- app_assoc, IH by lia. by rewrite <- !app_assoc.
Qed.

Lemma walk_top_level_first cs :
  ∃ deeper, walk (Other cs) = Other cs :: cs ++ deeper.
Proof.
  unfold walk. simpl. eexists. f_equal.
  rewrite <- (app_nil_r cs) at 2.
  rewrite walk_queue_prefix by apply sum_sizes_length. reflexivity.
Qed.

(** *** The dictionary of recorded entries *)

Lemma dict_set_keys {V} k (v : V) d :
  map fst (dict_set k v d) = if bool_decide (k ∈ map fst d) then map fst d else map fst d ++ [k].
Proof.
  induction d as [|[k' v'] d IH]; simpl; [done|].
  destruct (decide (k' = k)) as [->|Hne]; simpl.
  - rewrite bool_decide_true by left. done.
  - rewrite IH. destruct (bool_decide (k ∈ map fst d)) eqn:E.
    + apply bool_decide_eq_true in E. rewrite bool_decide_true; [done|by right].
    + apply bool_decide_eq_false in E. rewrite bool_decide_false; [done|].
      intros [?|?]%elem_of_cons; [congruence|done].
Qed.

Lemma dict_set_NoDup {V} k (v : V) d :
  NoDup (map fst d) → NoDup (map fst (dict_set k v d)).
Proof.
  intros Hnd. rewrite dict_set_keys. case_bool_decide; [done|].
  apply NoDup_app. split_and!; [done| |apply NoDup_singleton].
  intros x Hx ->%list_elem_of_singleton. done.
Qed.

Lemma dict_set_elem {V} k (v : V) d k' v' :
  NoDup (map fst d) →
  (k', v') ∈ dict_set k v d ↔ (k' = k ∧ v' = v) ∨ (k' ≠ k ∧ (k', v') ∈ d).
Proof.
  induction d as [|[k0 v0] d IH]; simpl; intros Hnd.
  - rewrite list_elem_of_singleton. split.
    + intros [= -> ->]. by left.
    + intros [[-> ->]|[_ H]]; [done|by apply elem_of_nil in H].
  - apply NoDup_cons in Hnd as [Hk0 Hnd].
    destruct (decide (k0 = k)) as [->|Hne].
    + rewrite !elem_of_cons. split.
      * intros [[= -> ->]|Hin]; [by left|]. right. split; [|by right].
        intros ->. apply Hk0. apply list_elem_of_fmap. by exists (k, v').
      * intros [[-> ->]|[Hne [[= -> ->]|Hin]]]; [by left|done|by right].
    + rewrite !elem_of_cons, IH by done. split.
      * intros [[= -> ->]|[[-> ->]|[? ?]]]; [right; split; [done|by left]|by left|].
        right. split; [done|by right].
      * intros [[-> ->]|[? [[= -> ->]|?]]]; [right; by left|by left|]. right; by right.
Qed.

Lemma foldl_write_NoDup {V} (ws : list (string * V)) : ∀ d,
  NoDup (map fst d) → NoDup (map fst (foldl write d ws)).
Proof.
  induction ws as [|w ws IH]; intros d Hd; simpl; [done|].
  apply IH. by apply dict_set_NoDup.
Qed.

(** An entry is in the dictionary exactly when it is the last write to its key. *)
Lemma foldl_write_last {V} (ws : list (string * V)) k v :
  (k, v) ∈ foldl write [] ws ↔
  ∃ pre post, ws = pre ++ (k, v) :: post ∧ k ∉ map fst post.
Proof.
  induction ws as [|w ws IH] using rev_ind; simpl.
  - split; [by intros ?%elem_of_nil|]. intros (pre & post & H & _).
    by destruct pre.
  - rewrite foldl_app. simpl. unfold write at 1.
    rewrite dict_set_elem by (apply foldl_write_NoDup; constructor).
    destruct w as [kw vw]. simpl. split.
    + intros [[-> ->]|[Hne Hin]].
      * exists ws, []. split; [done|]. by intros ?%elem_of_nil.
      * apply IH in Hin as (pre & post & Heq & Hpost).
        exists pre, (post ++ [(kw, vw)]). split; [by rewrite Heq, <- app_assoc|].
        rewrite map_app. simpl. intros [?|?%list_elem_of_singleton]%elem_of_app; done.
    + intros (pre & post & Heq & Hpost).
      destruct post as [|p post _] using rev_ind.
      * apply app_inj_tail in Heq as [-> [= -> ->]]. by left.
      * rewrite app_comm_cons, app_assoc in Heq.
        apply app_inj_tail in Heq as [-> <-].
        rewrite map_app in Hpost. simpl in Hpost.
        right. split.
        -- intros ->. apply Hpost. apply elem_of_app. right. by left.
        -- apply IH. exists pre, post. split; [done|].
           intros ?. apply Hpost. apply elem_of_app. by left.
Qed.

Lemma record_target_write value d target :
  record_target value d target =
  match target_write value target with Some kv => write d kv | None => d end.
Proof.
  unfold target_write, record_target, write.
  destruct target; try done.
  destruct value as [c| | |[] args []|]; done.
Qed.

Lemma foldl_record_target value targets : ∀ d,
  foldl (record_target value) d targets = foldl write d (omap (target_write value) targets).
Proof.
  induction targets as [|t ts IH]; intros d; simpl; [done|].
  rewrite record_target_write. destruct (target_write value t); simpl; by rewrite IH.
Qed.

Lemma foldl_record_node nodes : ∀ d,
  foldl record_node d nodes = foldl write d (concat (map node_writes nodes)).
Proof.
  induction nodes as [|n ns IH]; intros d; simpl; [done|].
  rewrite foldl_app, <- IH. f_equal.
  destruct n; simpl; [apply foldl_record_target|done].
Qed.

Lemma target_write_key value target k v :
  target_write value target = Some (k, v) → var_target v = k.
Proof.
  unfold target_write, record_target.
  destruct target; try done.
  destruct value as [c| | |[] args []|]; try done; simpl; by intros [= <- <-].
Qed.

Lemma elem_of_concat {A} (x : A) (ls : list (list A)) :
  x ∈ concat ls ↔ ∃ l, x ∈ l ∧ l ∈ ls.
Proof.
  rewrite list_elem_of_In, in_concat. split.
  - intros (l & ? & ?). exists l. by rewrite !list_elem_of_In.
  - intros (l & ? & ?). exists l. by rewrite <- !list_elem_of_In.
Qed.

Lemma all_writes_key tree k v : (k, v) ∈ all_writes tree → var_target v = k.
Proof.
  unfold all_writes. intros (ws & Hin & (n & -> & _)%list_elem_of_fmap)%elem_of_concat.
  destruct n as [targets value|]; simpl in Hin; [|by apply elem_of_nil in Hin].
  apply list_elem_of_omap in Hin as (t & _ & Ht). by eapply target_write_key.
Qed.

Lemma scrape_init_dict tree :
  scrape_init tree = map snd (foldl write [] (all_writes tree)).
Proof. unfold scrape_init, dict_values, all_writes. by rewrite foldl_record_node. Qed.

Lemma scrape_init_entries tree :
  ∀ k v, (k, v) ∈ foldl write [] (all_writes tree) → var_target v = k.
Proof.
  intros k v (pre & post & Heq & _)%foldl_write_last.
  apply (all_writes_key tree). rewrite Heq. apply elem_of_app. right. by left.
Qed.

(** C9, as the code has it.  [scrape_init] visits every node of the syntax
    tree of the entry file, nested or not, each once, the top-level
    statements first and in source order; it keeps one entry per name, and
    an entry is kept exactly when it is the last entry written for its name
    in the order of the walk. *)
Theorem scrape_init_walks_whole_tree (tree : node) :
  (∀ n, subnode n tree → n ∈ walk tree) ∧
  length (walk tree) = node_size tree ∧
  (∃ deeper, walk tree = tree :: top_level tree ++ deeper) ∧
  NoDup (map var_target (scrape_init tree)) ∧
  (∀ v, v ∈ scrape_init tree ↔
        ∃ pre post, all_writes tree = pre ++ (var_target v, v) :: post ∧
                    var_target v ∉ map fst post).
Proof.
  split_and!.
  - intros n Hsub. apply (walk_queue_complete _ _ n tree); [simpl; lia|by left|done].
  - unfold walk. rewrite walk_queue_length; simpl; lia.
  - destruct tree as [targets value|cs]; [by exists []|apply walk_top_level_first].
  - rewrite scrape_init_dict.
    assert (Hkeys : map var_target (map snd (foldl write [] (all_writes tree)))
                    = map fst (foldl write [] (all_writes tree))).
    { rewrite map_map. apply map_ext_in. intros [k v] Hin%list_elem_of_In.
      simpl. by apply scrape_init_entries in Hin. }
    rewrite Hkeys. apply foldl_write_NoDup. constructor.
  - intros v. rewrite scrape_init_dict, <- foldl_write_last. split.
    + intros ([k v'] & -> & Hin)%list_elem_of_fmap. simpl.
      by rewrite (scrape_init_entries _ _ _ Hin).
    + intros Hin. apply list_elem_of_fmap. by exists (var_target v, v).
Qed.

(** C9, as the spec states it, fails: an assignment nested in a function
    body is recorded, and it replaces the top-level assignments to the same
    name, the last one included. *)
Lemma scrape_init_records_nested :
  (top_level nested_only = [Other [Assign [Name "x"] (Constant (CInt 1))]] ∧
   scrape_init nested_only = [VConstant "x" (CInt 1)]) ∧
  scrape_init nested_and_top = [VConstant "threshold" (CInt 2)].
Proof. split; [split|]; reflexivity. Qed.

(** ** Finite graphs *)

Lemma tc_mono {A} (R R' : relation A) :
  (∀ x y, R x y → tc R' x y) → ∀ x y, tc R x y → tc R' x y.
Proof.
  intros Hsub x y H. induction H as [x y H|x y z H _ IH].
  - by apply Hsub.
  - etrans; [by apply Hsub|done].
Qed.

(** A non-empty finite set of nodes each of which has a successor in the set
    contains a cycle. *)
Lemma no_sink_cycle {A} `{EqDecision A} (n : nat) :
  ∀ (R : relation A) (L : list A),
    length L ≤ n → L ≠ [] →
    (∀ x, x ∈ L → ∃ y, y ∈ L ∧ R x y) →
    ∃ x, tc R x x.
Proof.
  induction n as [|n IH]; intros R L Hlen Hne Hsucc.
  - destruct L; [done|simpl in Hlen; lia].
  - destruct L as [|x L']; [done|]. clear Hne.
    destruct (Hsucc x) as (y & Hy & Hxy); [by left|].
    destruct (decide (y = x)) as [->|Hyx]; [exists x; by apply tc_once|].
    set (L'' := filter (λ a, a ≠ x) L').
    set (R' := λ a b, R a b ∨ (R a x ∧ R x b)).
    assert (Hin : ∀ a, a ∈ x :: L' → a ≠ x → a ∈ L'').
    { intros a [->|Ha]%elem_of_cons Hax; [done|].
      apply list_elem_of_filter. done. }
    destruct (IH R' L'') as (z & Hz).
    + pose proof (length_filter (λ a, a ≠ x) L'). simpl in Hlen. unfold L''. lia.
    + intros Hnil. specialize (Hin y Hy Hyx). rewrite Hnil in Hin.
      by apply elem_of_nil in Hin.
    + intros a [Hax Ha]%list_elem_of_filter.
      destruct (Hsucc a) as (b & Hb & Hab); [by right|].
      destruct (decide (b = x)) as [->|Hbx].
      * exists y. split; [by apply Hin|]. right. done.
      * exists b. split; [by apply Hin|]. by left.
    + exists z. revert Hz. apply tc_mono. intros a b [Hab|[Hax Hxb]].
      * by apply tc_once.
      * eapply tc_l; [done|by apply tc_once].
Qed.

(** ** Dictionaries *)

Lemma dict_get_elem {V} k (v : V) d :
  NoDup (map fst d) → dict_get k d = Some v ↔ (k, v) ∈ d.
Proof.
  induction d as [|[k' v'] d IH]; simpl; intros Hnd.
  - split; [done|by intros ?%elem_of_nil].
  - apply NoDup_cons in Hnd as [Hk' Hnd]. destruct (decide (k' = k)) as [->|Hne].
    + split; [intros [= ->]; by left|].
      intros [[= ->]|Hin]%elem_of_cons; [done|].
      exfalso. apply Hk'. apply list_elem_of_fmap. by exists (k, v).
    + rewrite IH by done. split; [by right|].
      intros [[= -> ->]|Hin]%elem_of_cons; done.
Qed.

Lemma foldl_dict_set_write {A V} (key : A → string) (val : A → V) l : ∀ d,
  foldl (λ d a, dict_set (key a) (val a) d) d l =
  foldl write d (map (λ a, (key a, val a)) l).
Proof. induction l as [|a l IH]; intros d; simpl; [done|]. by rewrite IH. Qed.

Lemma module_dependencies_writes local :
  module_dependencies_of local =
  foldl write [] (map (λ m, (mi_name m, extract_dependencies m local)) local).
Proof. apply foldl_dict_set_write. Qed.

Lemma module_dependencies_NoDup local :
  NoDup (map fst (module_dependencies_of local)).
Proof. rewrite module_dependencies_writes. apply foldl_write_NoDup. constructor. Qed.

(** The dependencies recorded for a name are those of the last entry of
    that name. *)
Lemma deps_of_elem local a b :
  depends_on local a b →
  ∃ m, m ∈ local ∧ mi_name m = a ∧ b ∈ extract_dependencies m local.
Proof.
  unfold depends_on, deps_of. intros Hb.
  destruct (dict_get a (module_dependencies_of local)) as [v|] eqn:Hget;
    [|by apply elem_of_nil in Hb].
  simpl in Hb. apply dict_get_elem in Hget; [|apply module_dependencies_NoDup].
  rewrite module_dependencies_writes in Hget.
  apply foldl_write_last in Hget as (pre & post & Heq & _).
  assert (Hin : (a, v) ∈ map (λ m, (mi_name m, extract_dependencies m local)) local).
  { rewrite Heq. apply elem_of_app. right. by left. }
  apply list_elem_of_fmap in Hin as (m & [= -> ->] & Hm). by exists m.
Qed.

Lemma deps_of_unique local m :
  NoDup (names local) → m ∈ local →
  deps_of (module_dependencies_of local) (mi_name m) = extract_dependencies m local.
Proof.
  intros Hnd Hm. unfold deps_of.
  assert (Hget : dict_get (mi_name m) (module_dependencies_of local)
                 = Some (extract_dependencies m local)); [|by rewrite Hget].
  apply dict_get_elem; [apply module_dependencies_NoDup|].
  rewrite module_dependencies_writes. apply foldl_write_last.
  apply list_elem_of_split in Hm as (pre & post & Heq).
  exists (map (λ m, (mi_name m, extract_dependencies m local)) pre),
         (map (λ m, (mi_name m, extract_dependencies m local)) post).
  split; [by rewrite Heq at 1; rewrite map_app|].
  rewrite map_map. simpl. unfold names in Hnd. rewrite Heq, map_app in Hnd. simpl in Hnd.
  apply NoDup_app in Hnd as (_ & _ & Hnd). by apply NoDup_cons in Hnd as [? _].
Qed.

Lemma extract_dependencies_elem m local b :
  b ∈ extract_dependencies m local ↔
  ∃ d, d ∈ local ∧ mi_name d = b ∧ mi_name d ≠ mi_name m ∧ mentions m d.
Proof.
  unfold extract_dependencies, mentions. destruct (mi_source m) as [source|].
  - rewrite list_elem_of_fmap. split.
    + intros (d & -> & [[Hne Hc] Hd]%list_elem_of_filter). exists d.
      split_and!; [done..|]. by exists source.
    + intros (d & Hd & <- & Hne & source' & [= <-] & Hc). exists d.
      split; [done|]. by apply list_elem_of_filter.
  - split; [by intros ?%elem_of_nil|]. by intros (d & _ & _ & _ & ? & ? & _).
Qed.

Lemma depends_on_names local a b :
  depends_on local a b → a ∈ names local ∧ b ∈ names local.
Proof.
  intros (m & Hm & <- & (d & Hd & <- & _)%extract_dependencies_elem)%deps_of_elem.
  unfold names. split; apply list_elem_of_fmap; eauto.
Qed.

(** ** The sorting loop *)

Section sort_loop.
Variable deps : list (string * list string).

Lemma is_ready_spec sorted m :
  is_ready deps sorted m = true ↔
  ∀ d, d ∈ deps_of deps (mi_name m) → d ∈ names sorted.
Proof.
  unfold is_ready. rewrite forallb_forall. split.
  - intros H d Hd%list_elem_of_In. apply H in Hd. by apply bool_decide_eq_true in Hd.
  - intros H d Hd%list_elem_of_In. apply bool_decide_eq_true. by apply H.
Qed.

Lemma not_ready_witness sorted m :
  is_ready deps sorted m = false →
  ∃ d, d ∈ deps_of deps (mi_name m) ∧ d ∉ names sorted.
Proof.
  unfold is_ready. induction (deps_of deps (mi_name m)) as [|d l IH]; simpl; [done|].
  intros [Hd|Hl]%andb_false_iff.
  - exists d. split; [by left|]. by apply bool_decide_eq_false in Hd.
  - destruct (IH Hl) as (d' & ? & ?). exists d'. split; [by right|done].
Qed.

Lemma pick_ready_Some sorted unsorted m rest :
  pick_ready deps sorted unsorted = Some (m, rest) →
  is_ready deps sorted m = true ∧ unsorted ≡ₚ m :: rest.
Proof.
  revert m rest. induction unsorted as [|x l IH]; intros m rest; simpl; [done|].
  destruct (is_ready deps sorted x) eqn:Hx.
  - by intros [= <- <-].
  - destruct (pick_ready deps sorted l) as [[y rest']|]; simpl; [|done].
    intros [= <- <-]. destruct (IH y rest' eq_refl) as [? Hp].
    split; [done|]. rewrite Hp. apply Permutation_swap.
Qed.

Lemma pick_ready_None sorted unsorted m :
  pick_ready deps sorted unsorted = None → m ∈ unsorted →
  is_ready deps sorted m = false.
Proof.
  induction unsorted as [|x l IH]; simpl; [by intros _ ?%elem_of_nil|].
  destruct (is_ready deps sorted x) eqn:Hx; [done|].
  destruct (pick_ready deps sorted l) as [[y rest']|]; simpl; [done|].
  intros _ [->|Hm]%elem_of_cons; [done|by apply IH].
Qed.

(** The loop never exhausts a budget of the number of entries left. *)
Lemma sort_loop_total fuel : ∀ sorted unsorted,
  length unsorted ≤ fuel → sort_loop fuel deps sorted unsorted ≠ OutOfFuel.
Proof.
  induction fuel as [|fuel IH]; intros sorted unsorted Hlen.
  - destruct unsorted; [done|simpl in Hlen; lia].
  - destruct unsorted as [|x l]; [done|].
    cbn [sort_loop]. destruct (pick_ready deps sorted (x :: l)) as [[m rest]|] eqn:Hp; [|done].
    apply IH. apply pick_ready_Some in Hp as [_ Hp].
    apply Permutation_length in Hp. simpl in *. lia.
Qed.

Lemma sort_loop_raise fuel : ∀ sorted unsorted e,
  sort_loop fuel deps sorted unsorted = Raise e → e = CyclicLocalDependency.
Proof.
  induction fuel as [|fuel IH]; intros sorted unsorted e.
  - destruct unsorted; done.
  - destruct unsorted as [|x l]; [done|].
    cbn [sort_loop]. destruct (pick_ready deps sorted (x :: l)) as [[m rest]|]; [|congruence].
    apply IH.
Qed.

(** What is emitted is a rearrangement of what was left, and each entry is
    emitted after an entry of each name it depends on. *)
Lemma sort_loop_sound fuel : ∀ sorted unsorted out,
  sort_loop fuel deps sorted unsorted = Ok out →
  ∃ tail, out = sorted ++ tail ∧ tail ≡ₚ unsorted ∧
    ∀ i m, out !! i = Some m → length sorted ≤ i →
      ∀ d, d ∈ deps_of deps (mi_name m) → d ∈ names (take i out).
Proof.
  induction fuel as [|fuel IH]; intros sorted unsorted out.
  - destruct unsorted; [|done]. intros [= <-]. exists []. split_and!; [by rewrite app_nil_r|done|].
    intros i m Hi Hlen. apply lookup_lt_Some in Hi. lia.
  - destruct unsorted as [|x l].
    { intros [= <-]. exists []. split_and!; [by rewrite app_nil_r|done|].
      intros i m Hi Hlen. apply lookup_lt_Some in Hi. lia. }
    cbn [sort_loop]. destruct (pick_ready deps sorted (x :: l)) as [[m rest]|] eqn:Hp; [|done].
    intros Hout. apply pick_ready_Some in Hp as [Hready Hperm].
    destruct (IH _ _ _ Hout) as (tail & -> & Htail & Hord).
    exists (m :: tail). split_and!.
    + by rewrite <- app_assoc.
    + by rewrite Hperm, Htail.
    + intros i e Hi Hlen d Hd.
      destruct (decide (i = length sorted)) as [->|Hne].
      * rewrite <- app_assoc in Hi. rewrite lookup_app_r in Hi by done.
        rewrite Nat.sub_diag in Hi. simpl in Hi. injection Hi as <-.
        rewrite <- app_assoc, take_app_length.
        by apply (is_ready_spec sorted m).
      * apply (Hord i e); [done| |done]. rewrite length_app. simpl. lia.
Qed.

(** In a graph without cycle whose edges stay among the entries, the loop
    always finds an entry to emit. *)
Lemma sort_loop_progress fuel : ∀ sorted unsorted,
  (∀ n, ¬ tc (λ a b, b ∈ deps_of deps a) n n) →
  (∀ m d, m ∈ unsorted → d ∈ deps_of deps (mi_name m) →
          d ∈ names sorted ∨ d ∈ names unsorted) →
  length unsorted ≤ fuel →
  ∃ out, sort_loop fuel deps sorted unsorted = Ok out.
Proof.
  induction fuel as [|fuel IH]; intros sorted unsorted Hacyc Hclosed Hlen.
  - destruct unsorted; [by eexists|simpl in Hlen; lia].
  - destruct unsorted as [|x l]; [by eexists|].
    cbn [sort_loop]. destruct (pick_ready deps sorted (x :: l)) as [[m rest]|] eqn:Hp.
    + apply pick_ready_Some in Hp as [_ Hperm]. apply IH; [done| |].
      * intros e d He Hd.
        assert (He' : e ∈ x :: l) by (rewrite Hperm; by right).
        destruct (Hclosed e d He' Hd) as [Hs|Hu].
        -- left. unfold names. rewrite map_app. apply elem_of_app. by left.
        -- unfold names in *. rewrite Hperm in Hu. simpl in Hu.
           apply elem_of_cons in Hu as [->|Hu]; [|by right].
           left. rewrite map_app. apply elem_of_app. right. by left.
      * apply Permutation_length in Hperm. simpl in *. lia.
    + exfalso.
      destruct (no_sink_cycle (length (names (x :: l)))
                  (λ a b, b ∈ deps_of deps a) (names (x :: l))) as (n & Hn);
        [done|done| |by apply (Hacyc n)].
      intros a (m & -> & Hm)%list_elem_of_fmap.
      apply (pick_ready_None _ _ m) in Hp; [|done].
      apply not_ready_witness in Hp as (d & Hd & Hnot).
      exists d. split; [|done].
      destruct (Hclosed m d Hm Hd); done.
Qed.
End sort_loop.

(** ** The order the sorter returns *)

Lemma index_of_lookup a l : a ∈ l → l !! index_of a l = Some a.
Proof.
  induction l as [|x l IH]; simpl; [by intros ?%elem_of_nil|].
  intros Hin. destruct (decide (x = a)) as [->|Hne]; [done|].
  simpl. apply IH. by apply elem_of_cons in Hin as [->|?].
Qed.

Lemma index_of_least a l j : l !! j = Some a → index_of a l ≤ j.
Proof.
  revert j. induction l as [|x l IH]; intros j; simpl; [done|].
  destruct (decide (x = a)) as [->|Hne]; [lia|].
  destruct j as [|j]; simpl; [by intros [= ->]|].
  intros Hj%IH. lia.
Qed.

Section sorted_order.
Variable deps : list (string * list string).
Variable out : list module_info.
Hypothesis ordered : ∀ i m, out !! i = Some m →
  ∀ d, d ∈ deps_of deps (mi_name m) → d ∈ names (take i out).

Lemma edge_decreases a b :
  a ∈ names out → b ∈ deps_of deps a →
  b ∈ names out ∧ index_of b (names out) < index_of a (names out).
Proof.
  intros Ha Hb. pose proof (index_of_lookup _ _ Ha) as Hi.
  unfold names in Hi. rewrite list_lookup_fmap in Hi.
  destruct (out !! index_of a (map mi_name out)) as [m|] eqn:Hm; [|done].
  simpl in Hi. injection Hi as Hname.
  rewrite <- Hname in Hb. apply (ordered _ _ Hm) in Hb.
  unfold names in Hb. rewrite <- firstn_map in Hb.
  apply elem_of_take in Hb as (j & Hj & Hlt). split.
  - by eapply list_elem_of_lookup_2.
  - apply index_of_least in Hj. unfold names. lia.
Qed.

Lemma path_decreases a b :
  tc (λ a b, b ∈ deps_of deps a) a b → a ∈ names out →
  b ∈ names out ∧ index_of b (names out) < index_of a (names out).
Proof.
  induction 1 as [a b Hab|a b c Hab _ IH]; intros Ha.
  - by apply edge_decreases.
  - destruct (edge_decreases a b Ha Hab) as [Hb Hlt].
    destruct (IH Hb) as [Hc Hlt']. split; [done|lia].
Qed.

Lemma sorted_no_cycle n :
  n ∈ names out → ¬ tc (λ a b, b ∈ deps_of deps a) n n.
Proof. intros Hn Hc. destruct (path_decreases _ _ Hc Hn). lia. Qed.
End sorted_order.

Lemma sort_modules_sound modules deps out :
  sort_modules modules deps = Ok out →
  out ≡ₚ modules ∧
  ∀ i m, out !! i = Some m →
    ∀ d, d ∈ deps_of deps (mi_name m) → d ∈ names (take i out).
Proof.
  intros (tail & -> & Hperm & Hord)%sort_loop_sound. simpl. split; [done|].
  intros i m Hi. apply (Hord i m Hi). simpl. lia.
Qed.


Lemma chain_acyclic : acyclic chain.
Proof.
  intros n Hc.
  assert (Hsort : sort_modules chain (module_dependencies_of chain)
                  = Ok [local_function "low" "def low(): return 0";
                        local_function "mid" "def mid(): return low()";
                        local_function "top" "def top(): return mid()"])
    by reflexivity.
  destruct (sort_modules_sound _ _ _ Hsort) as [Hperm Hord].
  apply (sorted_no_cycle _ _ Hord n); [|exact Hc].
  assert (Hn : n ∈ names chain).
  { inversion Hc as [? ? H|? ? ? H _]; by apply depends_on_names in H as [? _]. }
  unfold names in *. by rewrite Hperm.
Qed.


Lemma partition_modules_entries code name modules b :
  partition_modules code name modules = Ok b →
  ∀ m, m ∈ bundle_entries b → m ∈ filter (λ m, mi_name m ≠ "logger") modules.
Proof.
  unfold partition_modules.
  destruct (sort_modules _ _) as [sorted| |] eqn:Hsort; simpl; [|done..].
  intros [= <-] m. unfold bundle_entries. simpl.
  apply sort_modules_sound in Hsort as [Hperm _].
  rewrite !elem_of_app, Hperm.
  intros [Hm|[Hm|[Hm|[Hm|Hm]]]]; by apply list_elem_of_filter in Hm as [_ Hm].
Qed.

Lemma scrape_func_stages fuel rt func variables b :
  scrape_func fuel rt func variables = Ok b →
  ∃ code name g modules used inlined_modules class_info,
    collect_dependencies fuel rt func variables = Ok (code, name, g, modules, used) ∧
    for_each (inline_variable rt g) (modules, None) used = Ok (inlined_modules, class_info) ∧
    partition_modules code name inlined_modules = Ok b.
Proof.
  unfold scrape_func.
  destruct (collect_dependencies _ _ _ _) as [[[[[code name] g] ms] used]| |];
    simpl; [|done..].
  destruct (for_each _ _ _) as [[ms' ci]| |] eqn:Hloop; simpl; [|done..].
  intros Hp. by exists code, name, g, ms, used, ms', ci.
Qed.

(** C10.  No entry named [logger] is in any of the lists [scrape_func]
    returns. *)
Theorem scrape_func_drops_logger fuel rt func variables b :
  scrape_func fuel rt func variables = Ok b →
  ∀ m, m ∈ bundle_entries b → mi_name m ≠ "logger".
Proof.
  intros (code & name & g & ms & used & modules & ci & _ & _ & Hp)%scrape_func_stages m Hm.
  apply (partition_modules_entries _ _ _ _ Hp) in Hm.
  by apply list_elem_of_filter in Hm as [? _].
Qed.

(** ** The inlining loop *)

Lemma for_each_app {A S} (body : S → A → result S) l1 l2 : ∀ st,
  for_each body st (l1 ++ l2) = (st' ← for_each body st l1; for_each body st' l2).
Proof.
  induction l1 as [|a l1 IH]; intros st; simpl; [done|].
  destruct (body st a) as [st'| |]; simpl; [apply IH|done..].
Qed.

(** A property every iteration preserves holds when the loop returns. *)
Lemma for_each_invariant {A S} (body : S → A → result S) (I : S → Prop) l :
  (∀ st a st', a ∈ l → I st → body st a = Ok st' → I st') →
  ∀ st st', I st → for_each body st l = Ok st' → I st'.
Proof.
  induction l as [|a l IH]; intros Hstep st st' Hst; simpl.
  - by intros [= <-].
  - destruct (body st a) as [st1| |] eqn:Hbody; simpl; [|done..].
    apply IH.
    + intros ? ? ? ?. apply Hstep. by right.
    + apply (Hstep st a); [by left|done..].
Qed.

Lemma inline_variable_extends rt g ms ci v ms' ci' :
  inline_variable rt g (ms, ci) v = Ok (ms', ci') → ∃ extra, ms' = ms ++ extra.
Proof.
  unfold inline_variable. intros H.
  repeat (case_match; simplify_eq/=);
    first [by eexists | exists []; by rewrite app_nil_r].
Qed.

Lemma for_each_inline_extends rt g vs : ∀ ms ci ms' ci',
  for_each (inline_variable rt g) (ms, ci) vs = Ok (ms', ci') → ∃ extra, ms' = ms ++ extra.
Proof.
  induction vs as [|v vs IH]; intros ms ci ms' ci'; cbn [for_each].
  - intros [= <- <-]. exists []. by rewrite app_nil_r.
  - destruct (inline_variable rt g (ms, ci) v) as [[ms1 ci1]| |] eqn:Hstep;
      cbn [mbind result_bind]; [|done..].
    intros (extra' & ->)%IH. apply inline_variable_extends in Hstep as (extra & ->).
    exists (extra ++ extra'). by rewrite app_assoc.
Qed.

Lemma inline_yaml_constant rt g ms ci target value data :
  endswith ".yaml" value = true →
  dict_get ("src/" +:+ rt_cwd_name rt +:+ "/" +:+ value) (rt_files rt) = Some (Some data) →
  inline_variable rt g (ms, ci) (VConstant target (CStr value)) =
  Ok (ms ++ [inlined target None ImportVariable
               (target +:+ " = " +:+ py_str_yaml rt data +:+ newline) None],
      Some (inlined target None ImportVariable
              (target +:+ " = " +:+ py_str_yaml rt data +:+ newline) None)).
Proof. intros Hyaml Hfile. simpl. by rewrite Hyaml, Hfile. Qed.

(** C3.  A used constant whose text ends in [.yaml], when the file
    [src/<cwd name>/<text>] exists and loads, is inlined by [scrape_func] as
    the assignment of the loaded document to its name: the iteration appends
    the entry whose source text is that line, of kind variable, not local
    and without module, and no other; the entry is among the inlined
    entries, and it is returned with the variables unless the name is
    [logger]. *)
Theorem scrape_func_inlines_yaml fuel rt func variables code name g modules used b
    target value data :
  collect_dependencies fuel rt func variables = Ok (code, name, g, modules, used) →
  scrape_func fuel rt func variables = Ok b →
  VConstant target (CStr value) ∈ used →
  endswith ".yaml" value = true →
  dict_get ("src/" +:+ rt_cwd_name rt +:+ "/" +:+ value) (rt_files rt) = Some (Some data) →
  let entry :=
    {| mi_name := target; mi_module := None; mi_import_type := ImportVariable;
       mi_is_local := false;
       mi_source := Some (target +:+ " = " +:+ py_str_yaml rt data +:+ newline);
       mi_import_needed := None |} in
  (∀ ms ci, inline_variable rt g (ms, ci) (VConstant target (CStr value))
            = Ok (ms ++ [entry], Some entry)) ∧
  ∃ inlined_modules class_info,
    for_each (inline_variable rt g) (modules, None) used = Ok (inlined_modules, class_info) ∧
    entry ∈ inlined_modules ∧
    (target ≠ "logger" → entry ∈ variable_modules b).
Proof.
  intros Hcollect Hscrape Hused Hyaml Hfile entry.
  split; [intros ms ci; by apply (inline_yaml_constant rt g ms ci target value data)|].
  apply scrape_func_stages in Hscrape
    as (code' & name' & g' & ms0 & used' & ms' & ci' & Hc & Hloop & Hpart).
  rewrite Hcollect in Hc. injection Hc as <- <- <- <- <-.
  exists ms', ci'. split; [done|].
  assert (Hentry : entry ∈ ms').
  { apply list_elem_of_split in Hused as (pre & post & ->).
    rewrite for_each_app in Hloop.
    destruct (for_each _ _ pre) as [[ms1 ci1]| |]; cbn [mbind result_bind] in Hloop; [|done..].
    cbn [for_each] in Hloop.
    rewrite (inline_yaml_constant _ _ _ _ _ _ data) in Hloop by done.
    cbn [mbind result_bind] in Hloop.
    apply for_each_inline_extends in Hloop as (extra & ->).
    rewrite !elem_of_app. left. right. by left. }
  split; [done|]. intros Hname.
  unfold partition_modules in Hpart.
  destruct (sort_modules _ _) as [sorted| |]; simpl in Hpart; [|done..].
  injection Hpart as <-. simpl.
  apply list_elem_of_filter. split; [done|]. by apply list_elem_of_filter.
Qed.

Lemma scrape_func_inlines_yaml_witness :
  let entry :=
    {| mi_name := "config_path"; mi_module := None; mi_import_type := ImportVariable;
       mi_is_local := false;
       mi_source := Some ("config_path = {'x': 1}" +:+ newline);
       mi_import_needed := None |} in
  (∀ ms ci, inline_variable (config_rt settings_files) config_globals (ms, ci)
              (VConstant "config_path" (CStr "settings.yaml"))
            = Ok (ms ++ [entry], Some entry)) ∧
  ∃ inlined_modules class_info,
    for_each (inline_variable (config_rt settings_files) config_globals)
      ([run_entry], None) config_variables = Ok (inlined_modules, class_info) ∧
    entry ∈ inlined_modules ∧
    ("config_path" ≠ "logger" → entry ∈ variable_modules settings_bundle).
Proof.
  apply (scrape_func_inlines_yaml 2 (config_rt settings_files) 0 config_variables
           "def run(): return load(config_path, retries)" "run" config_globals
           [run_entry] config_variables settings_bundle
           "config_path" "settings.yaml" (YMap [(YStr "x", YInt 1)])).
  - vm_compute. reflexivity.
  - vm_compute. reflexivity.
  - left.
  - reflexivity.
  - reflexivity.
Defined.

(** C4, on the code.  When the YAML file is missing the iteration assigns
    nothing to [class_info] and appends it all the same: [scrape_func]
    raises [UnboundLocalError] when no earlier iteration bound it, and
    otherwise appends the entry of the previous variable a second time.  The
    constant is inlined in neither case. *)
Theorem scrape_func_missing_yaml :
  scrape_func 2 (config_rt []) 0 config_variables = Raise UnboundLocalError ∧
  (b ← scrape_func 2 (config_rt []) 0 retries_variables; Ok (variable_modules b)) =
    Ok [inlined "retries" None ImportVariable ("retries = 3" +:+ newline) None;
        inlined "retries" None ImportVariable ("retries = 3" +:+ newline) None].
Proof. split; vm_compute; reflexivity. Qed.

(** The entry for [logger] is found by the classifier and is in no list of
    the bundle. *)
Lemma logger_found :
  returned (get_obj_dependencies 3 logger_rt logger_globals "def run(): logger.info(1)" ∅) =
  Ok ([{| mi_name := "logger"; mi_module := Some "logging";
          mi_import_type := ImportSelective; mi_is_local := false;
          mi_source := None; mi_import_needed := None |};
       {| mi_name := "run"; mi_module := Some "main"; mi_import_type := ImportSelective;
          mi_is_local := true; mi_source := Some "def run(): logger.info(1)";
          mi_import_needed := None |}], []).
Proof. reflexivity. Qed.

Lemma scrape_func_drops_logger_witness :
  Forall (λ m, mi_name m ≠ "logger") (bundle_entries logger_bundle).
Proof.
  apply Forall_forall.
  apply (scrape_func_drops_logger 3 logger_rt 0 [] logger_bundle).
  vm_compute. reflexivity.
Defined.

(** ** The classifier *)

Ltac bind_case :=
  match goal with
  | H : (?x ≫= _) = Ok _ |- _ =>
      let E := fresh "Hbind" in
      destruct x as [?| |] eqn:E; cbn [mbind result_bind] in H
  end.

Ltac classify_cases H :=
  unfold classify in H; cbn [mbind result_bind] in H;
  repeat (first [case_match | bind_case]; simplify_eq/=).

Lemma classify_grows rt recurse code ms vs p name r ms' vs' p' :
  grows recurse →
  classify rt recurse code (ms, vs, p) (name, r) = Ok (ms', vs', p') →
  p ⊆ p'.
Proof.
  intros Hrec H. classify_cases H; try set_solver.
  apply Hrec in Hbind0. set_solver.
Qed.

Lemma for_each_classify_grows rt recurse code l st st' :
  grows recurse →
  for_each (classify rt recurse code) st l = Ok st' → st.2 ⊆ st'.2.
Proof.
  intros Hrec. apply (for_each_invariant _ (λ s, st.2 ⊆ s.2)); [|done].
  intros [[ms vs] p] [name r] [[ms1 vs1] p1] _ Hsub Hstep. simpl in *.
  apply classify_grows in Hstep; [|done]. set_solver.
Qed.

Lemma get_obj_dependencies_grows fuel rt : grows (get_obj_dependencies fuel rt).
Proof.
  induction fuel as [|fuel IH]; intros g code p ms vs p'; simpl; [done|].
  intros H. by apply for_each_classify_grows in H.
Qed.

(** A binding that is inspected leaves its object in [processed]. *)
Lemma classify_marks rt recurse code ms vs p name r ms' vs' p' :
  grows recurse →
  contains name code = true → startswith "__" name = false →
  classify rt recurse code (ms, vs, p) (name, r) = Ok (ms', vs', p') →
  r ∈ p' ∧ py_hashable (rt_obj rt r) = true.
Proof.
  intros Hrec Hname Hdunder H. classify_cases H;
    try (by rewrite Hname in * );
    try (split; [set_solver|by destruct (py_hashable _)]).
  - match goal with H : bool_decide (_ ∈ _) = true |- _ => apply bool_decide_eq_true in H end.
    split; [done|by destruct (py_hashable _)].
  - apply Hrec in Hbind0. split; [set_solver|by destruct (py_hashable _)].
Qed.

(** A binding whose object is in [processed] changes nothing. *)
Lemma classify_skip rt recurse code st name r :
  r ∈ st.2 → py_hashable (rt_obj rt r) = true →
  classify rt recurse code st (name, r) = Ok st.
Proof.
  destruct st as [[ms vs] p]. simpl. intros Hin Hhash. unfold classify.
  destruct (contains name code); simpl; [|done].
  by rewrite Hhash, bool_decide_true.
Qed.




(** The later binding is skipped, yet the class has two entries: the
    members of a union are recorded without a look at [processed], so a
    class bound in the scope that is also a member of a union is recorded
    under the name of its binding and again under its own name. *)
Lemma union_member_recorded_again :
  returned (get_obj_dependencies 3 alias_rt alias_scope
              "def f(x: A1, y: A2) -> Either: pass" ∅) =
    Ok ([{| mi_name := "A1"; mi_module := Some "models";
            mi_import_type := ImportSelective; mi_is_local := false;
            mi_source := None; mi_import_needed := None |};
         {| mi_name := "TypeA"; mi_module := Some "models";
            mi_import_type := ImportSelective; mi_is_local := false;
            mi_source := None; mi_import_needed := None |};
         {| mi_name := "TypeB"; mi_module := Some "models";
            mi_import_type := ImportSelective; mi_is_local := false;
            mi_source := None; mi_import_needed := None |}],
        [VUnion "Either" "Union[TypeA, TypeB]"]) ∧
  py_name (rt_obj alias_rt 1) = Some "TypeA" ∧
  py_module (rt_obj alias_rt 1) = Some (Some "models").
Proof. split_and!; reflexivity. Qed.

(** ** Union bindings *)

Lemma member_info_class_members args :
  omap member_info args = map selective_external (class_members args).
Proof.
  unfold class_members.
  induction args as [|[n m|n|s] args IH]; simpl; [done|f_equal; exact IH|exact IH..].
Qed.

(** C7.  A binding whose type name contains [Union] adds one union
    variable, whose value names the members, and one selective entry that is
    not local for each member that is a class; the union variable is inlined
    as one entry of kind union whose source line assigns that value. *)
Theorem union_binding_entries rt recurse code ms vs processed name r args :
  contains name code = true →
  startswith "__" name = false →
  py_hashable (rt_obj rt r) = true →
  r ∉ processed →
  contains "Union" (py_type_name (rt_obj rt r)) = true →
  py_args (rt_obj rt r) = Some args →
  let value := "Union[" +:+ join ", " (map arg_text args) +:+ "]" in
  let entry := inlined name None ImportUnion (name +:+ " = " +:+ value +:+ newline) None in
  classify rt recurse code (ms, vs, processed) (name, r) =
    Ok (ms ++ map selective_external (class_members args),
        vs ++ [VUnion name value], {[r]} ∪ processed) ∧
  (∀ fuel, returned (get_obj_dependencies (S fuel) rt [(name, r)] code processed) =
           Ok (map selective_external (class_members args), [VUnion name value])) ∧
  (∀ g ms' ci, inline_variable rt g (ms', ci) (VUnion name value) =
               Ok (ms' ++ [entry], Some entry)).
Proof.
  intros Hname Hdunder Hhash Hnew Hunion Hargs value entry.
  assert (Hstep : ∀ rec ms vs,
    classify rt rec code (ms, vs, processed) (name, r) =
    Ok (ms ++ map selective_external (class_members args),
        vs ++ [VUnion name value], {[r]} ∪ processed)).
  { intros rec ms0 vs0. unfold classify.
    by rewrite Hname, Hhash, Hdunder, Hunion, Hargs, bool_decide_false,
      member_info_class_members by done. }
  split_and!; [apply Hstep| |done].
  intros fuel. cbn [get_obj_dependencies for_each]. by rewrite Hstep.
Qed.

Lemma union_binding_entries_witness :
  let value := "Union[TypeA, TypeB]" in
  let entry := inlined "Payload" None ImportUnion
                 ("Payload = " +:+ value +:+ newline) None in
  classify payload_rt (get_obj_dependencies 0 payload_rt) "def run(p: Payload): pass"
    ([], [], ∅) ("Payload", 0) =
    Ok ([] ++ [selective_external ("TypeA", Some "models");
               selective_external ("TypeB", Some "models")],
        [] ++ [VUnion "Payload" value], {[0]} ∪ ∅) ∧
  (∀ fuel, returned (get_obj_dependencies (S fuel) payload_rt [("Payload", 0)]
                       "def run(p: Payload): pass" ∅) =
           Ok ([selective_external ("TypeA", Some "models");
                selective_external ("TypeB", Some "models")], [VUnion "Payload" value])) ∧
  (∀ g ms' ci, inline_variable payload_rt g (ms', ci) (VUnion "Payload" value) =
               Ok (ms' ++ [entry], Some entry)).
Proof.
  apply (union_binding_entries payload_rt (get_obj_dependencies 0 payload_rt)
           "def run(p: Payload): pass" [] [] ∅ "Payload" 0
           [ArgClass "TypeA" (Some "models"); ArgClass "TypeB" (Some "models")]);
    [reflexivity..|set_solver|reflexivity|reflexivity].
Defined.

(** ** Local entries and their source text *)

Lemma dict_get_Some_elem {V} k (v : V) d : dict_get k d = Some v → (k, v) ∈ d.
Proof.
  induction d as [|[k' v'] d IH]; simpl; [done|].
  destruct (decide (k' = k)) as [->|Hne].
  - intros [= ->]. by left.
  - intros H. right. by apply IH.
Qed.

Lemma loaded_scope_scanned rt g n mr :
  dict_get n (rt_sys_modules rt) = Some mr →
  py_dict (rt_obj rt mr) ∈ scanned_scopes rt g.
Proof.
  intros Hget%dict_get_Some_elem. unfold scanned_scopes. right.
  apply list_elem_of_fmap. by exists (n, mr).
Qed.

Lemma member_info_not_local args :
  Forall (λ m, mi_is_local m = false) (omap member_info args).
Proof.
  apply Forall_forall. intros m (arg & _ & Harg)%list_elem_of_omap.
  destruct arg; simplify_eq/=; done.
Qed.

Lemma not_local_ok rt g m : mi_is_local m = false → local_entry_ok rt g m.
Proof. unfold local_entry_ok. congruence. Qed.

Lemma classify_entries_ok rt g scope recurse code ms vs p b ms' vs' p' :
  scope ∈ scanned_scopes rt g → b ∈ scope →
  (∀ n mr c q ms vs q', dict_get n (rt_sys_modules rt) = Some mr →
     recurse (py_dict (rt_obj rt mr)) c q = Ok (ms, vs, q') →
     Forall (local_entry_ok rt g) ms) →
  Forall (local_entry_ok rt g) ms →
  classify rt recurse code (ms, vs, p) b = Ok (ms', vs', p') →
  Forall (local_entry_ok rt g) ms'.
Proof.
  intros Hscope Hb Hrec Hms H. destruct b as [name r]. classify_cases H; try done;
    rewrite ?Forall_app, ?Forall_singleton; split_and?; try done.
  - eapply Forall_impl; [apply member_info_not_local|]. intros m. apply not_local_ok.
  - intros _. exists scope, r. split_and!; [done..|]. left.
    match goal with H : bool_decide (_ = KModule) = true |- _ =>
      apply bool_decide_eq_true in H end. done.
  - intros _. exists scope, r. split_and!; [done..|]. right. split_and!; [done..|]. left.
    match goal with H : bool_decide (_ = KTypeVar) = true |- _ =>
      apply bool_decide_eq_true in H end. done.
  - match goal with H : (_ ≫= _) = Some _ |- _ => rename H into Hget end.
    match type of Hget with (?om ≫= _) = _ => destruct om as [n|]; [|done] end.
    by eapply Hrec.
  - intros _. exists scope, r. split_and!; [done..|]. right. split_and!; [done..|]. right.
    match goal with H : bool_decide (_ = KTypeVar) = false |- _ =>
      apply bool_decide_eq_false in H end.
    split; [done|]. by eexists.
Qed.

Lemma get_obj_dependencies_entries_ok fuel rt g : ∀ scope code processed ms vs p',
  scope ∈ scanned_scopes rt g →
  get_obj_dependencies fuel rt scope code processed = Ok (ms, vs, p') →
  Forall (local_entry_ok rt g) ms.
Proof.
  induction fuel as [|fuel IH]; intros scope code processed ms vs p' Hscope; simpl; [done|].
  intros H.
  apply (for_each_invariant _ (λ st, Forall (local_entry_ok rt g) st.1.1)) in H; [done| |done].
  intros [[ms0 vs0] p0] b [[ms1 vs1] p1] Hb Hok Hstep. simpl in *.
  eapply classify_entries_ok; [exact Hscope|exact Hb| |exact Hok|exact Hstep].
  intros n mr c q ms' vs' q' Hget Hcall.
  eapply IH; [|exact Hcall]. by eapply loaded_scope_scanned.
Qed.

Lemma inline_variable_entries_ok rt g0 g ms ci v ms' ci' :
  Forall (local_entry_ok rt g0) ms ∧ (∀ c, ci = Some c → mi_is_local c = false) →
  inline_variable rt g (ms, ci) v = Ok (ms', ci') →
  Forall (local_entry_ok rt g0) ms' ∧ (∀ c, ci' = Some c → mi_is_local c = false).
Proof.
  intros [Hms Hci] H. unfold inline_variable in H.
  repeat (first [case_match | bind_case]; simplify_eq/=);
    rewrite ?Forall_app, ?Forall_singleton; split_and?; try done;
    try (by apply not_local_ok); try (by intros ? [= <-]).
  all: apply not_local_ok; by apply Hci.
Qed.

(** C8, as the code has it.  Every entry that is local has its name bound
    to its object in a scope that was scanned, and is either a whole-module
    import, which carries no source text, or a selective import, which
    carries the definition text of that object, or the empty text when the
    object is a type variable.  It holds of what [get_obj_dependencies]
    returns and of every list [scrape_func] returns. *)
Theorem local_entries_source (fuel : nat) (rt : runtime) :
  (∀ g code processed ms vs p',
     get_obj_dependencies fuel rt g code processed = Ok (ms, vs, p') →
     Forall (local_entry_ok rt g) ms) ∧
  (∀ func variables b,
     scrape_func fuel rt func variables = Ok b →
     ∃ g, context_globals_of rt (rt_obj rt func) = Ok g ∧
          Forall (local_entry_ok rt g) (bundle_entries b)).
Proof.
  split.
  { intros g code processed ms vs p'. apply get_obj_dependencies_entries_ok. by left. }
  intros func variables b
    (code & name & g & ms & used & ms' & ci & Hc & Hloop & Hpart)%scrape_func_stages.
  exists g.
  assert (Hms : context_globals_of rt (rt_obj rt func) = Ok g ∧
                Forall (local_entry_ok rt g) ms).
  { unfold collect_dependencies in Hc.
    repeat (first [case_match | bind_case]; simplify_eq/=).
    split; [done|]. eapply get_obj_dependencies_entries_ok; [by left|done]. }
  destruct Hms as [Hg Hms]. split; [done|].
  apply (for_each_invariant _
           (λ st, Forall (local_entry_ok rt g) st.1 ∧ ∀ c, st.2 = Some c → mi_is_local c = false))
    in Hloop.
  - destruct Hloop as [Hms' _]. simpl in Hms'. rewrite Forall_forall in Hms'.
    apply Forall_forall. intros m Hm.
    apply (partition_modules_entries _ _ _ _ Hpart) in Hm.
    apply list_elem_of_filter in Hm as [_ Hm]. by apply Hms'.
  - intros [ms0 ci0] v [ms1 ci1] _ Hinv Hstep. by eapply inline_variable_entries_ok.
  - done.
Qed.

Lemma local_entries_source_witness :
  Forall (local_entry_ok sample_rt [("compute", 3)]) [typevar_entry; compute_entry].
Proof.
  apply (proj1 (local_entries_source 3 sample_rt)
           [("compute", 3)] "return compute(1)" ∅
           [typevar_entry; compute_entry] [] ({[4]} ∪ ({[3]} ∪ ∅))).
  vm_compute. reflexivity.
Defined.

(** C8, as the spec states it, fails: the import of a local module is
    recorded as local and carries no source text, and a module is not a
    type variable. *)
Lemma local_module_without_source :
  returned (get_obj_dependencies 3 sample_rt [("helpers", 2)]
              "return helpers.compute(1)" ∅) = Ok ([helpers_entry], []) ∧
  mi_is_local helpers_entry = true ∧
  mi_source helpers_entry = None ∧
  py_kind (rt_obj sample_rt 2) ≠ KTypeVar.
Proof. split_and!; [reflexivity..|done]. Qed.

(** ** Termination of the classifier *)

Lemma is_local_module_ok rt o :
  py_file o ≠ FileNone → ∃ b, is_local_module rt o = Ok b.
Proof.
  unfold is_local_module. destruct (py_file o); [(eexists; reflexivity)|done|].
  intros _. repeat case_match; (eexists; reflexivity).
Qed.

Lemma size_remaining_lt (U p : gset ref) r :
  r ∈ U → r ∉ p → size (U ∖ ({[r]} ∪ p)) < size (U ∖ p).
Proof. intros HU Hp. apply subset_size. set_solver. Qed.

Lemma size_remaining_le (U p p' : gset ref) :
  p ⊆ p' → size (U ∖ p') ≤ size (U ∖ p).
Proof. intros Hsub. apply subseteq_size. set_solver. Qed.

Lemma size_list_to_set_le (l : list ref) :
  size (list_to_set l : gset ref) ≤ length l.
Proof.
  induction l as [|x l IH]; [by rewrite list_to_set_nil, size_empty|].
  rewrite list_to_set_cons, size_union_alt, size_singleton. cbn [length].
  pose proof (subseteq_size (list_to_set l ∖ {[x]}) (list_to_set l : gset ref)) as Hle.
  specialize (Hle ltac:(set_solver)). lia.
Qed.

Lemma expands_loaded rt name o mr source :
  expands rt name o = Some (mr, source) →
  ∃ n, dict_get n (rt_sys_modules rt) = Some mr.
Proof.
  unfold expands. intros H. repeat (case_match; simplify_eq/=). by eexists.
Qed.

Section termination.
Variable rt : runtime.
Variable U : gset ref.
Variable g0 : list (string * ref).
Variable code0 : string.
Hypothesis bindings_ok : ∀ scope text name r,
  scanned rt g0 code0 scope text → (name, r) ∈ scope → contains name text = true →
  binding_ok rt name (rt_obj rt r) = true.
Hypothesis loaded : ∀ n mr, dict_get n (rt_sys_modules rt) = Some mr →
  ∀ b, b ∈ py_dict (rt_obj rt mr) → b.2 ∈ U.

Lemma classify_total recurse scope text ms vs p name r :
  scanned rt g0 code0 scope text → (name, r) ∈ scope →
  (∀ mr source, contains name text = true →
                expands rt name (rt_obj rt r) = Some (mr, source) → r ∉ p →
                ∃ st, recurse (py_dict (rt_obj rt mr)) source ({[r]} ∪ p) = Ok st) →
  ∃ st', classify rt recurse text (ms, vs, p) (name, r) = Ok st'.
Proof.
  intros Hscan Hin Hrec. unfold classify.
  destruct (contains name text) eqn:Hname; simpl; [|(eexists; reflexivity)].
  pose proof (bindings_ok _ _ _ _ Hscan Hin Hname) as Hok. unfold binding_ok in Hok.
  apply andb_prop in Hok as [Hhash Hok]. rewrite Hhash. simpl.
  destruct (decide (r ∈ p)) as [Hp|Hp];
    [rewrite bool_decide_true by done; eexists; reflexivity
    |rewrite bool_decide_false by done].
  unfold expands in Hrec.
  destruct (startswith "__" name); [(eexists; reflexivity)|]. simpl in Hok.
  destruct (contains "Union" _).
  { apply bool_decide_eq_true in Hok as [args ->]. (eexists; reflexivity). }
  destruct (bool_decide (py_kind _ = KPrim)); [(eexists; reflexivity)|].
  destruct (bool_decide (py_kind _ = KModule)).
  { apply andb_prop in Hok as [[n ->]%bool_decide_eq_true Hfile].
    apply negb_true_iff, bool_decide_eq_false in Hfile.
    destruct (is_local_module_ok rt (rt_obj rt r) Hfile) as [b ->].
    (eexists; reflexivity). }
  destruct (py_module (rt_obj rt r)) as [[n|]|]; [|(eexists; reflexivity)|done].
  cbn [mbind option_bind] in *.
  destruct (dict_get n (rt_sys_modules rt)) as [mr|] eqn:Hget; [|(eexists; reflexivity)].
  destruct (py_truthy (rt_obj rt mr)); simpl in *; [|(eexists; reflexivity)].
  apply andb_prop in Hok as [-> Hok]. simpl.
  destruct (bool_decide (mr ∈ _)); [(eexists; reflexivity)|].
  destruct (is_local_module rt (rt_obj rt mr)) as [[|]| |]; [| |done..];
    cbn [mbind result_bind]; [|(eexists; reflexivity)].
  destruct (bool_decide (py_kind _ = KTypeVar)); simpl in *; [(eexists; reflexivity)|].
  destruct (py_source (rt_obj rt r)) as [source|e]; [|done].
  destruct (Hrec mr source eq_refl eq_refl Hp) as [[[nms nvs] p'] ->].
  (eexists; reflexivity).
Qed.

(** With a budget above the number of objects not yet processed, the
    classifier returns. *)
Lemma get_obj_dependencies_total fuel : ∀ scope text p,
  scanned rt g0 code0 scope text →
  (∀ b, b ∈ scope → b.2 ∈ U) →
  size (U ∖ p) < fuel →
  ∃ st, get_obj_dependencies fuel rt scope text p = Ok st.
Proof.
  induction fuel as [|fuel IH]; intros scope text p Hscan Hscope Hsize; [lia|].
  cbn [get_obj_dependencies].
  assert (Hloop : ∀ l st, (∀ b, b ∈ l → b ∈ scope) → size (U ∖ st.2) < S fuel →
    ∃ st', for_each (classify rt (get_obj_dependencies fuel rt) text) st l = Ok st').
  { clear p Hsize. induction l as [|[name r] l IHl]; intros st Hl Hst.
    - (eexists; reflexivity).
    - destruct st as [[ms vs] p]. cbn [for_each].
      assert (Hin : (name, r) ∈ scope) by (apply Hl; by left).
      destruct (classify_total (get_obj_dependencies fuel rt) scope text ms vs p name r)
        as [[[ms1 vs1] p1] Hstep]; [done..| |].
      + intros mr source Hname Hexp Hp.
        destruct (expands_loaded _ _ _ _ _ Hexp) as [n Hget].
        apply IH.
        * exact (scanned_next rt g0 code0 scope text name r mr source Hscan Hin Hname Hexp).
        * by apply (loaded n mr).
        * pose proof (size_remaining_lt U p r (Hscope _ Hin) Hp). simpl in Hst. lia.
      + rewrite Hstep. cbn [mbind result_bind]. apply IHl.
        * intros b Hb. apply Hl. by right.
        * apply classify_grows in Hstep; [|apply get_obj_dependencies_grows].
          pose proof (size_remaining_le U p p1 Hstep). simpl in *. lia. }
  apply Hloop; [done|]. simpl. lia.
Qed.
End termination.

(** A list that [scans_closed] accepts holds what is scanned, and the
    bindings inspected there are as the loop body needs them. *)
Lemma scans_closed_bindings_ok rt g code scans :
  (g, code) ∈ scans → scans_closed rt scans = true →
  ∀ scope text name r,
    scanned rt g code scope text → (name, r) ∈ scope → contains name text = true →
    binding_ok rt name (rt_obj rt r) = true.
Proof.
  intros Hfirst Hclosed.
  assert (Hstep : ∀ scope text name r, (scope, text) ∈ scans → (name, r) ∈ scope →
            contains name text = true →
            binding_ok rt name (rt_obj rt r) = true ∧
            ∀ mr source, expands rt name (rt_obj rt r) = Some (mr, source) →
                         (py_dict (rt_obj rt mr), source) ∈ scans).
  { intros scope text name r Hscan Hin Hname. unfold scans_closed in Hclosed.
    rewrite forallb_forall in Hclosed. apply list_elem_of_In, Hclosed in Hscan.
    rewrite forallb_forall in Hscan. apply list_elem_of_In, Hscan in Hin.
    simpl in Hin. rewrite Hname in Hin. simpl in Hin.
    apply andb_prop in Hin as [Hok Hexp]. split; [done|].
    intros mr source Heq. rewrite Heq in Hexp. by apply bool_decide_eq_true in Hexp. }
  assert (Hin : ∀ scope text, scanned rt g code scope text → (scope, text) ∈ scans).
  { induction 1 as [|scope text name r mr source _ IH Hb Hname Hexp]; [done|].
    by apply (Hstep scope text name r IH Hb Hname). }
  intros scope text name r Hscan. by apply Hstep, Hin.
Qed.




(** ** Entries that share a name *)

Lemma tc_fmap {A B} (f : A → B) (R : relation A) (R' : relation B) :
  (∀ x y, R x y → R' (f x) (f y)) → ∀ x y, tc R x y → tc R' (f x) (f y).
Proof.
  intros Hf x y H. induction H as [x y H|x y z H _ IH].
  - apply tc_once. by apply Hf.
  - eapply tc_l; [by apply Hf|done].
Qed.

Lemma ranked_no_cycle {A} (R : relation A) (rank : A → nat) :
  (∀ x y, R x y → rank y < rank x) → ∀ x, ¬ tc R x x.
Proof.
  intros Hrank.
  assert (Hpath : ∀ x y, tc R x y → rank y < rank x).
  { intros x y H. induction H as [x y H|x y z H _ IH].
    - by apply Hrank.
    - apply Hrank in H. lia. }
  intros x Hx%Hpath. lia.
Qed.

(** When the names are distinct, the graph of line 230 has the edges of the
    source texts. *)
Lemma refers_depends_on local m d :
  NoDup (names local) → refers local m d →
  depends_on local (mi_name m) (mi_name d).
Proof.
  intros Hnd (Hm & Hd & Hne & Hmentions). unfold depends_on.
  rewrite deps_of_unique by done. apply extract_dependencies_elem.
  exists d. by split_and!.
Qed.

Lemma cycle_of_entries local m :
  NoDup (names local) → tc (refers local) m m → cyclic local.
Proof.
  intros Hnd Hc. exists (mi_name m).
  apply (tc_fmap mi_name (refers local) (depends_on local)); [|done].
  intros x y. by apply refers_depends_on.
Qed.



Lemma mutual_refers :
  NoDup (names mutual) ∧
  ∃ m, tc (refers mutual) m m.
Proof.
  split; [by apply (bool_decide_unpack _)|].
  exists (local_function "ping" "def ping(): return pong()").
  apply tc_l with (local_function "pong" "def pong(): return ping()"); [|apply tc_once];
    (split_and!; [set_solver|set_solver|done|by eexists]).
Qed.



(** ** More on the entry-file scanner *)

Lemma append_cons c (s t : string) : String c s +:+ t = String c (s +:+ t).
Proof. reflexivity. Qed.

Lemma append_nil_r (s : string) : s +:+ "" = s.
Proof. induction s as [|c s IH]; [done|]. by rewrite append_cons, IH. Qed.

Lemma append_assoc (s1 s2 s3 : string) : (s1 +:+ s2) +:+ s3 = s1 +:+ (s2 +:+ s3).
Proof. induction s1 as [|c s1 IH]; [done|]. by rewrite !append_cons, IH. Qed.

Lemma join_cons sep p q qs : join sep (p :: q :: qs) = p +:+ sep +:+ join sep (q :: qs).
Proof. reflexivity. Qed.

Lemma join_snoc sep p ps x :
  join sep (p :: ps ++ [x]) = join sep (p :: ps) +:+ sep +:+ x.
Proof.
  revert p. induction ps as [|q ps IH]; intros p; [done|].
  cbn [app]. by rewrite !join_cons, IH, !append_assoc.
Qed.

Lemma extract_value_dotted first rest :
  extract_value (dotted first rest) = CStr (join "." (first :: rest)).
Proof.
  unfold dotted. induction rest as [|a rest IH] using rev_ind; [done|].
  rewrite foldl_app. cbn [foldl extract_value]. rewrite IH. cbn [py_str_const].
  by rewrite (join_snoc "." first rest a).
Qed.

(** X3.  The value text of a keyword argument: a dotted name is rendered
    with its dots, and a call of a dotted name or of a plain name, whatever
    its arguments, as the name followed by an empty pair of parentheses. *)
Theorem extract_value_dotted_names first rest method args keywords :
  extract_value (dotted first rest) = CStr (join "." (first :: rest)) ∧
  extract_value (Call (dotted first (rest ++ [method])) args keywords) =
    CStr (join "." (first :: rest ++ [method]) +:+ "()") ∧
  extract_value (Call (Name first) args keywords) = CStr (first +:+ "()").
Proof.
  split_and!; [apply extract_value_dotted| |done].
  unfold dotted. rewrite foldl_app. cbn [foldl extract_value].
  fold (dotted first rest). rewrite extract_value_dotted. cbn [py_str_const].
  rewrite (join_snoc "." first rest method). by rewrite !append_assoc.
Qed.

Lemma walk_queue_sound fuel : ∀ todo n,
  n ∈ walk_queue fuel todo → ∃ t, t ∈ todo ∧ subnode n t.
Proof.
  induction fuel as [|fuel IH]; intros todo n; [by intros ?%elem_of_nil|].
  destruct todo as [|t0 rest]; [by intros ?%elem_of_nil|]. simpl.
  intros [->|Hin]%elem_of_cons.
  - exists t0. split; [by left|constructor].
  - apply IH in Hin as (t & [Ht|Ht]%elem_of_app & Hsub).
    + exists t. split; [by right|done].
    + exists t0. split; [by left|]. destruct t0 as [|cs]; [by apply elem_of_nil in Ht|].
      by apply subnode_below with t.
Qed.

Lemma concat_map_nil {A B} (f : A → list B) (l : list A) :
  (∀ a, a ∈ l → f a = []) → concat (map f l) = [].
Proof.
  induction l as [|a l IH]; intros H; simpl; [done|].
  rewrite (H a) by left. apply IH. intros ? ?. apply H. by right.
Qed.

Lemma all_writes_top_level cs :
  (∀ c g n, c ∈ cs → g ∈ iter_child_nodes c → subnode n g → node_writes n = []) →
  all_writes (Other cs) = concat (map node_writes cs).
Proof.
  intros Hflat. unfold all_writes, walk. simpl.
  rewrite <- (app_nil_r cs) at 2.
  rewrite walk_queue_prefix by apply sum_sizes_length.
  rewrite map_app, concat_app. rewrite (concat_map_nil node_writes (walk_queue _ _)).
  - by rewrite app_nil_r.
  - intros n (g & Hg & Hsub)%walk_queue_sound. simpl in Hg.
    apply elem_of_concat in Hg as (gs & Hg & (c & -> & Hc)%list_elem_of_fmap).
    by apply (Hflat c g n).
Qed.

(** X1.  In an entry file none of whose nested nodes writes an entry, what
    [scrape_init] returns is what the top-level statements write, in source
    order: an entry is kept exactly when it is the last one written for its
    name at top level. *)
Theorem scrape_init_top_level cs :
  (∀ c g n, c ∈ cs → g ∈ iter_child_nodes c → subnode n g → node_writes n = []) →
  scrape_init (Other cs) = dict_values (foldl record_node [] cs) ∧
  ∀ v, v ∈ scrape_init (Other cs) ↔
       ∃ pre post, concat (map node_writes cs) = pre ++ (var_target v, v) :: post ∧
                   var_target v ∉ map fst post.
Proof.
  intros Hflat. pose proof (all_writes_top_level cs Hflat) as Hw. split.
  - rewrite scrape_init_dict, Hw. unfold dict_values. by rewrite foldl_record_node.
  - intros v. rewrite scrape_init_dict, <- Hw, <- foldl_write_last. split.
    + intros ([k v'] & -> & Hin)%list_elem_of_fmap. simpl.
      by rewrite (scrape_init_entries _ _ _ Hin).
    + intros Hin. apply list_elem_of_fmap. by exists (var_target v, v).
Qed.

Lemma scrape_init_top_level_witness :
  scrape_init reassigned = dict_values (foldl record_node [] (iter_child_nodes reassigned)) ∧
  ∀ v, v ∈ scrape_init reassigned ↔
       ∃ pre post,
         concat (map node_writes (iter_child_nodes reassigned))
         = pre ++ (var_target v, v) :: post ∧
         var_target v ∉ map fst post.
Proof.
  apply (scrape_init_top_level (iter_child_nodes reassigned)).
  intros c g n Hc Hg. simpl in Hc.
  repeat (apply elem_of_cons in Hc as [->|Hc]; [by apply elem_of_nil in Hg|]).
  by apply elem_of_nil in Hc.
Defined.

Lemma keys_of_values (d : list (string * variable)) :
  (∀ k v, (k, v) ∈ d → var_target v = k) →
  map var_target (map snd d) = map fst d.
Proof.
  intros H. rewrite map_map. apply map_ext_in. intros [k v] Hin%list_elem_of_In.
  simpl. by apply H.
Qed.

Lemma foldl_write_keys {V} (ws : list (string * V)) :
  map fst (foldl write [] ws) = reverse (remove_dups (reverse (map fst ws))).
Proof.
  induction ws as [|[k v] ws IH] using rev_ind; [done|].
  rewrite foldl_app. cbn [foldl]. unfold write at 1. cbn [fst snd].
  rewrite dict_set_keys, IH, map_app. cbn [map fst]. rewrite reverse_snoc. cbn [remove_dups].
  destruct (decide_rel elem_of k (reverse (map fst ws))) as [Hin|Hnin].
  - rewrite bool_decide_true; [done|].
    by rewrite elem_of_reverse, elem_of_remove_dups.
  - rewrite bool_decide_false; [by rewrite reverse_cons|].
    by rewrite elem_of_reverse, elem_of_remove_dups.
Qed.

(** X2.  The entries [scrape_init] returns are in the order in which their
    names were first written during the walk, one entry per name. *)
Theorem scrape_init_order (tree : node) :
  map var_target (scrape_init tree) =
  reverse (remove_dups (reverse (map fst (all_writes tree)))).
Proof.
  rewrite scrape_init_dict, keys_of_values by apply scrape_init_entries.
  apply foldl_write_keys.
Qed.

(** *** Lookups in the dictionary *)

Lemma dict_get_set_eq {V} k (v : V) d : dict_get k (dict_set k v d) = Some v.
Proof.
  induction d as [|[k' v'] d IH]; simpl.
  - by rewrite decide_True.
  - destruct (decide (k' = k)) as [->|Hne]; simpl.
    + by rewrite decide_True.
    + by rewrite decide_False.
Qed.

Lemma dict_get_set_ne {V} k k' (v : V) d :
  k ≠ k' → dict_get k' (dict_set k v d) = dict_get k' d.
Proof.
  intros Hne. induction d as [|[k0 v0] d IH]; simpl.
  - by rewrite decide_False.
  - destruct (decide (k0 = k)) as [->|Hne0]; simpl.
    + by rewrite !decide_False.
    + destruct (decide (k0 = k')); [done|apply IH].
Qed.

Lemma target_write_name value target k v :
  target_write value target = Some (k, v) → target = Name k.
Proof.
  unfold target_write. destruct target; try done.
  destruct (head _) as [[k' v']|]; simpl; [|done]. by intros [= <- <-].
Qed.

Lemma foldl_record_target_kept value targets id : ∀ d,
  Name id ∉ targets ∨ target_write value (Name id) = None →
  dict_get id (foldl (record_target value) d targets) = dict_get id d.
Proof.
  induction targets as [|t ts IH]; intros d Hcase; cbn [foldl]; [done|].
  rewrite IH, record_target_write.
  - destruct (target_write value t) as [[k v]|] eqn:Ht; [|done].
    pose proof (target_write_name _ _ _ _ Ht) as ->.
    unfold write. cbn [fst snd]. apply dict_get_set_ne. intros ->.
    destruct Hcase as [Hnin|Hnone]; [apply Hnin; by left|congruence].
  - destruct Hcase as [Hnin|Hnone]; [left|by right].
    intros ?. apply Hnin. by right.
Qed.

Lemma foldl_record_target_written value targets id kv : ∀ d,
  target_write value (Name id) = Some kv →
  Name id ∈ targets ∨ dict_get id d = Some kv.2 →
  dict_get id (foldl (record_target value) d targets) = Some kv.2.
Proof.
  induction targets as [|t ts IH]; intros d Hid Hcase; cbn [foldl].
  - destruct Hcase as [?%elem_of_nil|?]; done.
  - apply IH; [done|]. rewrite record_target_write.
    destruct (target_write value t) as [[k v]|] eqn:Ht.
    + pose proof (target_write_name _ _ _ _ Ht) as ->.
      unfold write. cbn [fst snd]. destruct (decide (k = id)) as [->|Hne].
      * right. rewrite dict_get_set_eq. rewrite Ht in Hid. by injection Hid as <-.
      * rewrite dict_get_set_ne by done.
        destruct Hcase as [[?|?]%elem_of_cons|?]; [by simplify_eq|by left|by right].
    + destruct Hcase as [[Heq|?]%elem_of_cons|?]; [|by left|by right].
      rewrite <- Heq in Ht. congruence.
Qed.

(** X4.  Visiting an assignment writes, for each target that is a plain
    name, the entry of that name: a constant for a literal value, a call for
    the call of a plain name, with the names and value texts of its keyword
    arguments when it has some; the entries of the other names are left as
    they were, and an assignment of any other value changes nothing. *)
Theorem record_node_lookup d targets id :
  (∀ c, Name id ∈ targets →
        dict_get id (record_node d (Assign targets (Constant c))) = Some (VConstant id c)) ∧
  (∀ cls args, Name id ∈ targets →
        dict_get id (record_node d (Assign targets (Call (Name cls) args []))) =
        Some (VCall id cls None)) ∧
  (∀ cls args kw kws, Name id ∈ targets →
        dict_get id (record_node d (Assign targets (Call (Name cls) args (kw :: kws)))) =
        Some (VCall id cls (Some (map fst (kw :: kws),
                                  map (λ kw, extract_value (snd kw)) (kw :: kws))))) ∧
  (∀ value, Name id ∉ targets →
        dict_get id (record_node d (Assign targets value)) = dict_get id d) ∧
  (∀ value, target_write value (Name id) = None →
        dict_get id (record_node d (Assign targets value)) = dict_get id d).
Proof.
  split_and!.
  - intros c Hin. cbn [record_node].
    by apply (foldl_record_target_written _ _ _ (id, VConstant id c)); [|left].
  - intros cls args Hin. cbn [record_node].
    by apply (foldl_record_target_written _ _ _ (id, VCall id cls None)); [|left].
  - intros cls args kw kws Hin. cbn [record_node].
    by apply (foldl_record_target_written _ _ _
                (id, VCall id cls (Some (map fst (kw :: kws),
                                         map (λ kw, extract_value (snd kw)) (kw :: kws)))));
      [|left].
  - intros value Hnin. cbn [record_node]. apply foldl_record_target_kept. by left.
  - intros value Hnone. cbn [record_node]. apply foldl_record_target_kept. by right.
Qed.

(** ** Locality of a module *)

Lemma prefix_append p rest : String.prefix p (p +:+ rest) = true.
Proof.
  induction p as [|c p IH]; [by destruct rest|].
  rewrite append_cons. simpl. destruct (ascii_dec c c); [exact IH|done].
Qed.

Lemma prefix_inv p s : String.prefix p s = true → ∃ rest, s = p +:+ rest.
Proof.
  revert s. induction p as [|c p IH]; intros s; [by exists s|].
  destruct s as [|c' s]; simpl; [done|].
  destruct (ascii_dec c c') as [->|]; [|done].
  intros (rest & ->)%IH. by exists rest.
Qed.

Lemma prefix_extends p s : String.prefix p s = true ↔ ∃ rest, s = p +:+ rest.
Proof. split; [apply prefix_inv|]. intros (rest & ->). apply prefix_append. Qed.

(** X5.  [is_local_module] compares texts: a module is local exactly when
    the text of its path extends the text of the working directory and does
    not extend the text of its [.venv] directory.  It raises exactly for a
    [__file__] that is [None]. *)
Theorem is_local_module_extends rt o :
  (is_local_module rt o = Ok true ↔
   ∃ rest, py_file o = FilePath (rt_cwd rt +:+ rest) ∧
           ∀ rest', rt_cwd rt +:+ rest ≠ os_path_join (rt_cwd rt) ".venv" +:+ rest') ∧
  (∀ e, is_local_module rt o = Raise e ↔ py_file o = FileNone ∧ e = TypeError).
Proof.
  unfold is_local_module. destruct (py_file o) as [| |path].
  - split; [|split; [done|by intros [? _]]].
    split; [done|]. by intros (? & ? & _).
  - split; [|split; [by intros [= <-]|by intros [_ ->]]].
    split; [done|]. by intros (? & ? & _).
  - unfold startswith.
    destruct (String.prefix (rt_cwd rt) path) eqn:Hcwd.
    + apply prefix_inv in Hcwd as (rest & ->).
      destruct (String.prefix (os_path_join (rt_cwd rt) ".venv") (rt_cwd rt +:+ rest)) eqn:Hvenv.
      * apply prefix_inv in Hvenv as (rest' & Hvenv).
        split; [|split; [done|by intros [? _]]].
        split; [done|]. intros (rest0 & [= Heq] & Hno).
        exfalso. apply (Hno rest'). by rewrite <- Heq.
      * split; [|split; [done|by intros [? _]]].
        split; [|done]. intros _. exists rest. split; [done|].
        intros rest' Heq. rewrite Heq, prefix_append in Hvenv. done.
    + split; [|split; [done|by intros [? _]]].
      split; [done|]. intros (rest & [= ->] & _).
      by rewrite prefix_append in Hcwd.
Qed.

(** ** More on the classifier *)

Lemma classify_unnamed rt recurse code st name r :
  contains name code = false → classify rt recurse code st (name, r) = Ok st.
Proof. intros H. destruct st as [[ms vs] p]. unfold classify. by rewrite H. Qed.

(** X6.  The bindings whose names do not occur in the scanned text are not
    inspected: classification gives what it gives on the bindings whose
    names occur, whatever the other objects are. *)
Theorem unnamed_bindings_ignored fuel rt g code processed :
  get_obj_dependencies fuel rt g code processed =
  get_obj_dependencies fuel rt (filter (λ b, contains b.1 code = true) g) code processed.
Proof.
  destruct fuel as [|fuel]; [done|]. cbn [get_obj_dependencies].
  generalize (([], [], processed) : scan_state).
  induction g as [|[name r] g IH]; intros st; [done|].
  destruct (contains name code) eqn:Hname.
  - rewrite filter_cons_True by done. cbn [for_each].
    destruct (classify _ _ _ _ _) as [st'| |]; cbn [mbind result_bind]; [apply IH|done..].
  - rewrite filter_cons_False by (simpl; congruence). cbn [for_each].
    rewrite classify_unnamed by done. cbn [mbind result_bind]. apply IH.
Qed.

Lemma for_each_classify_marks rt recurse code g name r : ∀ st st',
  grows recurse →
  (name, r) ∈ g → contains name code = true → startswith "__" name = false →
  for_each (classify rt recurse code) st g = Ok st' →
  r ∈ st'.2 ∧ py_hashable (rt_obj rt r) = true.
Proof.
  intros st st' Hrec (pre & post & ->)%list_elem_of_split Hname Hdunder.
  rewrite for_each_app.
  destruct (for_each _ _ pre) as [[[ms0 vs0] p0]| |]; cbn [mbind result_bind]; [|done..].
  cbn [for_each].
  destruct (classify _ _ _ _ (name, r)) as [[[ms1 vs1] p1]| |] eqn:Hstep;
    cbn [mbind result_bind]; [|done..].
  intros Hpost. apply classify_marks in Hstep as [Hin Hhash]; [|done..].
  split; [|done]. apply for_each_classify_grows in Hpost; [|done]. set_solver.
Qed.

Lemma classify_bounded rt recurse code ms vs p name r ms' vs' p' :
  (∀ g c q ms vs q', recurse g c q = Ok (ms, vs, q') →
     (∃ n mr, dict_get n (rt_sys_modules rt) = Some mr ∧ g = py_dict (rt_obj rt mr)) →
     q' ⊆ q ∪ module_refs rt) →
  classify rt recurse code (ms, vs, p) (name, r) = Ok (ms', vs', p') →
  p' ⊆ p ∪ {[r]} ∪ module_refs rt.
Proof.
  intros Hrec H. classify_cases H; try set_solver.
  apply Hrec in Hbind0; [set_solver|].
  match goal with H : (_ ≫= _) = Some _ |- _ => rename H into Hget end.
  destruct o as [n|]; [|done]. by exists n, r0.
Qed.

Lemma module_refs_elem rt n mr b :
  dict_get n (rt_sys_modules rt) = Some mr → b ∈ py_dict (rt_obj rt mr) →
  b.2 ∈ module_refs rt.
Proof.
  intros Hget%dict_get_Some_elem Hb. unfold module_refs.
  apply elem_of_list_to_set, elem_of_concat.
  exists (map snd (py_dict (rt_obj rt mr))). split.
  - apply list_elem_of_fmap. by exists b.
  - apply list_elem_of_fmap. by exists (n, mr).
Qed.

Lemma get_obj_dependencies_bounded fuel rt : ∀ g code processed ms vs p',
  get_obj_dependencies fuel rt g code processed = Ok (ms, vs, p') →
  p' ⊆ processed ∪ list_to_set (map snd g) ∪ module_refs rt.
Proof.
  induction fuel as [|fuel IH]; intros g code processed ms vs p'; [done|].
  cbn [get_obj_dependencies]. intros H.
  apply (for_each_invariant _
    (λ st, st.2 ⊆ processed ∪ list_to_set (map snd g) ∪ module_refs rt)) in H;
    [done| |set_solver].
  intros [[ms0 vs0] p0] [name r] [[ms1 vs1] p1] Hb Hinv Hstep. simpl in *.
  apply classify_bounded in Hstep.
  - assert (r ∈ (list_to_set (map snd g) : gset ref)).
    { apply elem_of_list_to_set, list_elem_of_fmap. by exists (name, r). }
    set_solver.
  - intros g' c q ms' vs' q' Hrec (n & mr & Hget & ->). apply IH in Hrec.
    assert ((list_to_set (map snd (py_dict (rt_obj rt mr))) : gset ref) ⊆ module_refs rt).
    { intros x (b & -> & Hb')%elem_of_list_to_set%list_elem_of_fmap.
      by eapply module_refs_elem. }
    set_solver.
Qed.

(** X7.  What a call leaves in [processed]: all that was there, every
    object bound under a name that occurs in the text and does not start
    with two underscores (each of them hashable), and nothing besides the
    objects bound in the scanned scope and in the loaded modules. *)
Theorem processed_after_call fuel rt g code processed ms vs p' :
  get_obj_dependencies fuel rt g code processed = Ok (ms, vs, p') →
  processed ⊆ p' ∧
  (∀ name r, (name, r) ∈ g → contains name code = true → startswith "__" name = false →
             r ∈ p' ∧ py_hashable (rt_obj rt r) = true) ∧
  p' ⊆ processed ∪ list_to_set (map snd g) ∪ module_refs rt.
Proof.
  intros H. split_and!.
  - by apply get_obj_dependencies_grows in H.
  - destruct fuel as [|fuel]; [done|]. cbn [get_obj_dependencies] in H.
    intros name r Hin Hname Hdunder.
    by apply (for_each_classify_marks _ _ _ _ name r _ _
                (get_obj_dependencies_grows fuel rt) Hin Hname Hdunder) in H.
  - by apply get_obj_dependencies_bounded in H.
Qed.

Lemma processed_after_call_witness :
  (∅ : gset ref) ⊆ {[4]} ∪ ({[3]} ∪ ∅) ∧
  (∀ name r, (name, r) ∈ [("compute", 3)] → contains name "return compute(1)" = true →
             startswith "__" name = false →
             r ∈ ({[4]} ∪ ({[3]} ∪ ∅) : gset ref) ∧ py_hashable (rt_obj sample_rt r) = true) ∧
  ({[4]} ∪ ({[3]} ∪ ∅) : gset ref) ⊆
    ∅ ∪ list_to_set (map snd [("compute", 3)]) ∪ module_refs sample_rt.
Proof.
  apply (processed_after_call 3 sample_rt [("compute", 3)] "return compute(1)" ∅
           [typevar_entry; compute_entry] []).
  vm_compute. reflexivity.
Defined.

(** *** What the classifier records *)

Lemma classify_kinds rt recurse code ms vs p b ms' vs' p' :
  (∀ g c q ms vs q', recurse g c q = Ok (ms, vs, q') →
     Forall classifier_entry ms ∧ Forall classifier_variable vs) →
  Forall classifier_entry ms ∧ Forall classifier_variable vs →
  classify rt recurse code (ms, vs, p) b = Ok (ms', vs', p') →
  Forall classifier_entry ms' ∧ Forall classifier_variable vs'.
Proof.
  intros Hrec [Hms Hvs] H. destruct b as [name r]. classify_cases H;
    rewrite ?Forall_app, ?Forall_singleton; split_and?; try done;
    try (by unfold classifier_entry; simpl; split_and!; eauto).
  - apply Forall_forall. intros m (arg & _ & Harg)%list_elem_of_omap.
    destruct arg; simplify_eq/=. unfold classifier_entry. simpl. eauto.
  - right. by eexists _, _.
  - left. by eexists _, _.
  - by apply Hrec in Hbind0 as [? _].
  - by apply Hrec in Hbind0 as [_ ?].
Qed.

(** X8.  The classifier records whole-module and selective imports only,
    none with the import-needed mark, and source text only on local
    entries; the variables it records are constants, whose value is a text,
    and unions: it records no call. *)
Theorem classifier_output_kinds fuel rt g code processed ms vs p' :
  get_obj_dependencies fuel rt g code processed = Ok (ms, vs, p') →
  Forall classifier_entry ms ∧ Forall classifier_variable vs.
Proof.
  revert g code processed ms vs p'.
  induction fuel as [|fuel IH]; intros g code processed ms vs p'; [done|].
  cbn [get_obj_dependencies]. intros H.
  apply (for_each_invariant _
    (λ st, Forall classifier_entry st.1.1 ∧ Forall classifier_variable st.1.2)) in H;
    [done| |by split].
  intros [[ms0 vs0] p0] b [[ms1 vs1] p1] _ Hinv Hstep. simpl in *.
  eapply classify_kinds; [|exact Hinv|exact Hstep]. intros. by eapply IH.
Qed.

Lemma classifier_output_kinds_witness :
  Forall classifier_entry [typevar_entry; compute_entry] ∧
  Forall classifier_variable [].
Proof.
  apply (classifier_output_kinds 3 sample_rt [("compute", 3)] "return compute(1)" ∅
           [typevar_entry; compute_entry] [] ({[4]} ∪ ({[3]} ∪ ∅))).
  vm_compute. reflexivity.
Defined.

(** ** More on [scrape_func] *)

Lemma for_each_inline_member rt g v (P : module_info → Prop) used : ∀ ms ci ms' ci',
  (∀ ms ci, ∃ e, P e ∧ inline_variable rt g (ms, ci) v = Ok (ms ++ [e], Some e)) →
  v ∈ used →
  for_each (inline_variable rt g) (ms, ci) used = Ok (ms', ci') →
  ∃ e, P e ∧ e ∈ ms'.
Proof.
  intros ms ci ms' ci' Hstep (pre & post & ->)%list_elem_of_split.
  rewrite for_each_app.
  destruct (for_each _ _ pre) as [[ms1 ci1]| |]; cbn [mbind result_bind]; [|done..].
  cbn [for_each]. destruct (Hstep ms1 ci1) as (e & He & ->). cbn [mbind result_bind].
  intros (extra & ->)%for_each_inline_extends.
  exists e. split; [done|]. rewrite !elem_of_app. left. right. by left.
Qed.

Lemma partition_variable_member code name modules b e :
  partition_modules code name modules = Ok b →
  e ∈ modules → mi_import_type e = ImportVariable → mi_name e ≠ "logger" →
  e ∈ variable_modules b.
Proof.
  unfold partition_modules.
  destruct (sort_modules _ _) as [sorted| |]; cbn [mbind result_bind]; [|done..].
  intros [= <-] Hin Hkind Hname. simpl.
  apply list_elem_of_filter. split; [done|]. by apply list_elem_of_filter.
Qed.

Lemma inline_plain_constant rt g ms ci target value :
  is_str value && endswith ".yaml" (py_str_const value) = false →
  inline_variable rt g (ms, ci) (VConstant target value) =
  Ok (ms ++ [inlined target None ImportVariable
               (target +:+ " = " +:+ py_str_const value +:+ newline) None],
      Some (inlined target None ImportVariable
              (target +:+ " = " +:+ py_str_const value +:+ newline) None)).
Proof. intros H. cbn [inline_variable]. by rewrite H. Qed.

(** X9.  A used constant that is not a text ending in [.yaml] is inlined as
    the assignment of [str] of its value to its name, a text value without
    quotes: the entry is among the inlined entries, and it is returned with
    the variables unless the name is [logger]. *)
Theorem scrape_func_inlines_constant fuel rt func variables code name g modules used b
    target value :
  collect_dependencies fuel rt func variables = Ok (code, name, g, modules, used) →
  scrape_func fuel rt func variables = Ok b →
  VConstant target value ∈ used →
  is_str value && endswith ".yaml" (py_str_const value) = false →
  let entry :=
    {| mi_name := target; mi_module := None; mi_import_type := ImportVariable;
       mi_is_local := false;
       mi_source := Some (target +:+ " = " +:+ py_str_const value +:+ newline);
       mi_import_needed := None |} in
  ∃ inlined_modules class_info,
    for_each (inline_variable rt g) (modules, None) used = Ok (inlined_modules, class_info) ∧
    entry ∈ inlined_modules ∧
    (target ≠ "logger" → entry ∈ variable_modules b).
Proof.
  intros Hcollect Hscrape Hused Hplain entry.
  apply scrape_func_stages in Hscrape
    as (code' & name' & g' & ms0 & used' & ms' & ci' & Hc & Hloop & Hpart).
  rewrite Hcollect in Hc. injection Hc as <- <- <- <- <-.
  exists ms', ci'. split; [done|].
  destruct (for_each_inline_member rt g (VConstant target value) (λ e, e = entry)
              used modules None ms' ci') as (e & -> & Hin); [|done..|].
  { intros ms ci. exists entry. split; [done|].
    by apply (inline_plain_constant rt g ms ci target value). }
  split; [done|]. intros Hname. by eapply partition_variable_member.
Qed.

Lemma scrape_func_inlines_constant_witness :
  let entry :=
    {| mi_name := "retries"; mi_module := None; mi_import_type := ImportVariable;
       mi_is_local := false;
       mi_source := Some ("retries" +:+ " = " +:+ py_str_const (CInt 3) +:+ newline);
       mi_import_needed := None |} in
  ∃ inlined_modules class_info,
    for_each (inline_variable (config_rt settings_files) config_globals)
      ([run_entry], None) retries_variables = Ok (inlined_modules, class_info) ∧
    entry ∈ inlined_modules ∧
    ("retries" ≠ "logger" → entry ∈ variable_modules retries_bundle).
Proof.
  apply (scrape_func_inlines_constant 2 (config_rt settings_files) 0 retries_variables
           "def run(): return load(config_path, retries)" "run" config_globals
           [run_entry] retries_variables retries_bundle "retries" (CInt 3)).
  - vm_compute. reflexivity.
  - vm_compute. reflexivity.
  - left.
  - reflexivity.
Defined.

Lemma existsb_name cls (ms : list module_info) :
  existsb (λ m, bool_decide (mi_name m = cls)) ms = bool_decide (cls ∈ map mi_name ms).
Proof.
  induction ms as [|m ms IH]; [done|]. cbn [existsb map]. rewrite IH.
  destruct (decide (mi_name m = cls)) as [Heq|Hne].
  - rewrite (bool_decide_true (mi_name m = cls)) by done. simpl.
    symmetry. apply bool_decide_true. rewrite <- Heq. by left.
  - rewrite (bool_decide_false (mi_name m = cls)) by done. simpl.
    apply bool_decide_ext. split; [by right|].
    intros [?|?]%elem_of_cons; [congruence|done].
Qed.

Lemma inline_call rt g ms ci target cls kwargs r module_name mr :
  dict_get cls g = Some r →
  py_truthy (rt_obj rt r) = true → py_kind (rt_obj rt r) = KClass →
  py_module (rt_obj rt r) = Some (Some module_name) →
  dict_get module_name (rt_sys_modules rt) = Some mr →
  inline_variable rt g (ms, ci) (VCall target cls kwargs) =
  let entry := inlined cls (Some module_name) ImportVariable (call_line target cls kwargs)
                 (if bool_decide (cls ∈ map mi_name ms) then Some false else None) in
  Ok (ms ++ [entry], Some entry).
Proof.
  intros Hget Htruthy Hkind Hmodule Hloaded. cbn [inline_variable].
  rewrite Hget, Htruthy, Hkind, Hmodule. cbn [mbind option_bind andb].
  rewrite bool_decide_true by done. rewrite Hloaded, existsb_name. done.
Qed.

(** X10.  A used call variable whose class name is bound, in the scanned
    scope, to a class of a loaded module is inlined as one entry under the
    name of the class, not of the target, whose source line is the call
    rebuilt from the recorded keywords; the entry is marked as needing no
    import exactly when an entry of the class's name precedes it, and it is
    returned with the variables unless the class is named [logger]. *)
Theorem scrape_func_inlines_call fuel rt func variables code name g modules used b
    target cls kwargs r module_name mr :
  collect_dependencies fuel rt func variables = Ok (code, name, g, modules, used) →
  scrape_func fuel rt func variables = Ok b →
  VCall target cls kwargs ∈ used →
  dict_get cls g = Some r →
  py_truthy (rt_obj rt r) = true → py_kind (rt_obj rt r) = KClass →
  py_module (rt_obj rt r) = Some (Some module_name) →
  dict_get module_name (rt_sys_modules rt) = Some mr →
  (∀ ms ci, inline_variable rt g (ms, ci) (VCall target cls kwargs) =
     let entry :=
       {| mi_name := cls; mi_module := Some module_name; mi_import_type := ImportVariable;
          mi_is_local := false; mi_source := Some (call_line target cls kwargs);
          mi_import_needed :=
            if bool_decide (cls ∈ map mi_name ms) then Some false else None |} in
     Ok (ms ++ [entry], Some entry)) ∧
  ∃ import_needed,
    let entry :=
      {| mi_name := cls; mi_module := Some module_name; mi_import_type := ImportVariable;
         mi_is_local := false; mi_source := Some (call_line target cls kwargs);
         mi_import_needed := import_needed |} in
    (import_needed = None ∨ import_needed = Some false) ∧
    (cls ≠ "logger" → entry ∈ variable_modules b).
Proof.
  intros Hcollect Hscrape Hused Hget Htruthy Hkind Hmodule Hloaded.
  split; [intros ms ci; by apply (inline_call rt g ms ci target cls kwargs r module_name mr)|].
  apply scrape_func_stages in Hscrape
    as (code' & name' & g' & ms0 & used' & ms' & ci' & Hc & Hloop & Hpart).
  rewrite Hcollect in Hc. injection Hc as <- <- <- <- <-.
  destruct (for_each_inline_member rt g (VCall target cls kwargs)
              (λ e, ∃ needed, (needed = None ∨ needed = Some false) ∧
                 e = inlined cls (Some module_name) ImportVariable
                       (call_line target cls kwargs) needed)
              used modules None ms' ci') as (e & (needed & Hneeded & ->) & Hin); [|done..|].
  { intros ms ci. eexists. split; [|by eapply inline_call].
    eexists. split; [|done]. case_bool_decide; eauto. }
  exists needed. split; [done|]. intros Hname. by eapply partition_variable_member.
Qed.

Lemma scrape_func_inlines_call_witness :
  (∀ ms ci,
     inline_variable call_rt call_globals (ms, ci)
       (VCall "cfg" "Config" (Some ([Some "path"; Some "retries"], [CStr "a.yaml"; CInt 3]))) =
     let entry :=
       {| mi_name := "Config"; mi_module := Some "main"; mi_import_type := ImportVariable;
          mi_is_local := false;
          mi_source :=
            Some (call_line "cfg" "Config"
                    (Some ([Some "path"; Some "retries"], [CStr "a.yaml"; CInt 3])));
          mi_import_needed :=
            if bool_decide ("Config" ∈ map mi_name ms) then Some false else None |} in
     Ok (ms ++ [entry], Some entry)) ∧
  ∃ import_needed,
    let entry :=
      {| mi_name := "Config"; mi_module := Some "main"; mi_import_type := ImportVariable;
         mi_is_local := false;
         mi_source :=
           Some (call_line "cfg" "Config"
                   (Some ([Some "path"; Some "retries"], [CStr "a.yaml"; CInt 3])));
         mi_import_needed := import_needed |} in
    (import_needed = None ∨ import_needed = Some false) ∧
    ("Config" ≠ "logger" → entry ∈ variable_modules call_bundle).
Proof.
  apply (scrape_func_inlines_call 3 call_rt 0 call_variables
           "def run(): return tool(cfg.load())" "run" call_globals
           [call_run_entry] call_variables call_bundle
           "cfg" "Config" (Some ([Some "path"; Some "retries"], [CStr "a.yaml"; CInt 3]))
           2 "main" 1).
  - vm_compute. reflexivity.
  - vm_compute. reflexivity.
  - left.
  - reflexivity.
  - reflexivity.
  - reflexivity.
  - reflexivity.
  - reflexivity.
Defined.

(** The line of the example call, as the bundle carries it. *)
Lemma call_entry_source :
  mi_source call_entry =
  Some ("cfg = Config(path=" +:+ String dquote ("a.yaml" +:+ String dquote ", retries=3, )")
        +:+ newline).
Proof. reflexivity. Qed.

Lemma inline_call_dropped rt g st target cls kwargs :
  dict_get cls g = None ∨
  (∃ r, dict_get cls g = Some r ∧
        (py_truthy (rt_obj rt r) = false ∨ py_kind (rt_obj rt r) ≠ KClass)) →
  inline_variable rt g st (VCall target cls kwargs) = Ok st.
Proof.
  destruct st as [ms ci]. cbn [inline_variable].
  intros [->|(r & -> & [->|Hkind])]; [done..|].
  rewrite (bool_decide_false _ Hkind). by rewrite andb_false_r.
Qed.

(** X11.  A call variable whose class name is not bound in the scanned
    scope, or is bound to something that is not a class, is dropped without
    an error: the inlining loop gives what it gives without the variable. *)
Theorem unbound_call_dropped rt g st pre post target cls kwargs :
  dict_get cls g = None ∨
  (∃ r, dict_get cls g = Some r ∧
        (py_truthy (rt_obj rt r) = false ∨ py_kind (rt_obj rt r) ≠ KClass)) →
  for_each (inline_variable rt g) st (pre ++ VCall target cls kwargs :: post) =
  for_each (inline_variable rt g) st (pre ++ post).
Proof.
  intros Hcase. rewrite !for_each_app.
  destruct (for_each _ _ pre) as [st'| |]; cbn [mbind result_bind]; [|done..].
  cbn [for_each]. by rewrite inline_call_dropped.
Qed.

Lemma unbound_call_dropped_witness :
  for_each (inline_variable call_rt call_globals) ([call_run_entry], None)
    ([VCall "cfg" "Config" (Some ([Some "path"; Some "retries"], [CStr "a.yaml"; CInt 3]))]
     ++ VCall "tool" "make_tool" None :: []) =
  for_each (inline_variable call_rt call_globals) ([call_run_entry], None)
    ([VCall "cfg" "Config" (Some ([Some "path"; Some "retries"], [CStr "a.yaml"; CInt 3]))]
     ++ []).
Proof.
  apply (unbound_call_dropped call_rt call_globals).
  right. exists 3. split; [reflexivity|]. right. done.
Defined.

(** *** The lists of the bundle *)

Lemma partition_modules_lists code name modules b :
  partition_modules code name modules = Ok b →
  fn_code b = code ∧ fn_name b = name ∧
  (∀ m, m ∈ bundle_entries b ↔ m ∈ modules ∧ mi_name m ≠ "logger") ∧
  local_modules b ≡ₚ local_entries modules ∧
  (∀ m, m ∈ local_modules b →
        (m ∈ standard_import_modules b ↔ mi_import_type m = ImportStandard)).
Proof.
  intros Hpart. pose proof (partition_modules_entries _ _ _ _ Hpart) as Hsub.
  unfold partition_modules in Hpart.
  destruct (sort_modules _ _) as [sorted| |] eqn:Hsort; cbn [mbind result_bind] in Hpart;
    [|done..].
  injection Hpart as <-. apply sort_modules_sound in Hsort as [Hperm _].
  split_and!; [done..| | |].
  - intros m. split.
    + intros Hm%Hsub. apply list_elem_of_filter in Hm as [? ?]. done.
    + intros [Hm Hname]. unfold bundle_entries. simpl. rewrite !elem_of_app, Hperm.
      rewrite !list_elem_of_filter.
      destruct (mi_is_local m) eqn:Hlocal; [by left|].
      destruct (mi_import_type m) eqn:Hkind; eauto 10.
  - done.
  - intros m Hm. simpl in *. rewrite Hperm in Hm.
    apply list_elem_of_filter in Hm as [_ Hm]. rewrite list_elem_of_filter. tauto.
Qed.

(** X12.  The last stage of [scrape_func] returns the code and the name it
    was given and loses no entry but those named [logger]: an entry is in
    one of the lists exactly when it was collected and is not named
    [logger].  The local list holds the local entries, rearranged, and a
    local whole-module import is in the list of standard imports as well. *)
Theorem partition_modules_covers code name modules b :
  partition_modules code name modules = Ok b →
  fn_code b = code ∧ fn_name b = name ∧
  (∀ m, m ∈ bundle_entries b ↔ m ∈ modules ∧ mi_name m ≠ "logger") ∧
  local_modules b ≡ₚ local_entries modules ∧
  (∀ m, m ∈ local_modules b →
        (m ∈ standard_import_modules b ↔ mi_import_type m = ImportStandard)).
Proof. apply partition_modules_lists. Qed.

Lemma partition_modules_covers_witness :
  fn_code settings_bundle = "def run(): return load(config_path, retries)" ∧
  fn_name settings_bundle = "run" ∧
  (∀ m, m ∈ bundle_entries settings_bundle ↔
        m ∈ [run_entry;
             inlined "config_path" None ImportVariable
               ("config_path = {'x': 1}" +:+ newline) None] ∧
        mi_name m ≠ "logger") ∧
  local_modules settings_bundle ≡ₚ
    local_entries [run_entry;
                   inlined "config_path" None ImportVariable
                     ("config_path = {'x': 1}" +:+ newline) None] ∧
  (∀ m, m ∈ local_modules settings_bundle →
        (m ∈ standard_import_modules settings_bundle ↔ mi_import_type m = ImportStandard)).
Proof.
  apply (partition_modules_covers "def run(): return load(config_path, retries)" "run"
           [run_entry;
            inlined "config_path" None ImportVariable
              ("config_path = {'x': 1}" +:+ newline) None]).
  vm_compute. reflexivity.
Defined.

Lemma collect_dependencies_Ok fuel rt func variables code name g found used :
  collect_dependencies fuel rt func variables = Ok (code, name, g, found, used) →
  ∃ source new_variables processed',
    py_source (rt_obj rt func) = inl source ∧
    code = strip_decorators source ∧
    py_name (rt_obj rt func) = Some name ∧
    context_globals_of rt (rt_obj rt func) = Ok g ∧
    get_obj_dependencies fuel rt g code ∅ = Ok (found, new_variables, processed') ∧
    used = filter (λ v, contains (var_target v) code = true) variables ++ new_variables.
Proof.
  unfold collect_dependencies.
  destruct (py_source _) as [source|e]; [|done].
  destruct (py_name _) as [name'|]; [|done].
  destruct (context_globals_of _ _) as [g'| |]; cbn [mbind result_bind]; [|done..].
  destruct (get_obj_dependencies _ _ _ _ _) as [[[ms vs] p]| |] eqn:Hgod;
    cbn [mbind result_bind]; [|done..].
  intros [= <- <- <- <- <-]. by exists source, vs, p.
Qed.

(** X13.  When [scrape_func] returns, the object it was given is a function
    or a class with a name and a definition text: the name is returned as
    it is, the code is the definition text without its decorator lines, and
    the bindings scanned are the globals of the function, or the bindings
    of the module named by the class. *)
Theorem scrape_func_returns_code fuel rt func variables b :
  scrape_func fuel rt func variables = Ok b →
  ∃ source,
    py_source (rt_obj rt func) = inl source ∧
    fn_code b = strip_decorators source ∧
    py_name (rt_obj rt func) = Some (fn_name b) ∧
    (py_kind (rt_obj rt func) = KFunction ∨
     py_kind (rt_obj rt func) = KClass ∧
     ∃ module_name mr, py_module (rt_obj rt func) = Some (Some module_name) ∧
                       dict_get module_name (rt_sys_modules rt) = Some mr).
Proof.
  intros (code & name & g & ms & used & ms' & ci & Hc & _ & Hpart)%scrape_func_stages.
  apply collect_dependencies_Ok in Hc
    as (source & vs & p & Hsource & -> & Hname & Hglobals & _).
  apply partition_modules_lists in Hpart as (-> & -> & _).
  exists source. split_and!; [done..|].
  unfold context_globals_of in Hglobals.
  destruct (py_kind _); try done; [|by left]. right. split; [done|].
  destruct (py_module _) as [[module_name|]|]; try done. cbn [mbind option_bind] in Hglobals.
  destruct (dict_get module_name _) as [mr|] eqn:Hget; [|done]. by exists module_name, mr.
Qed.

Lemma scrape_func_returns_code_witness :
  ∃ source,
    py_source (rt_obj (config_rt settings_files) 0) = inl source ∧
    fn_code settings_bundle = strip_decorators source ∧
    py_name (rt_obj (config_rt settings_files) 0) = Some (fn_name settings_bundle) ∧
    (py_kind (rt_obj (config_rt settings_files) 0) = KFunction ∨
     py_kind (rt_obj (config_rt settings_files) 0) = KClass ∧
     ∃ module_name mr,
       py_module (rt_obj (config_rt settings_files) 0) = Some (Some module_name) ∧
       dict_get module_name (rt_sys_modules (config_rt settings_files)) = Some mr).
Proof.
  apply (scrape_func_returns_code 2 (config_rt settings_files) 0 config_variables).
  vm_compute. reflexivity.
Defined.

(** X14.  How the stages compose: the variables inlined are the recorded
    variables whose target occurs in the code, in their order, followed by
    those the classifier found; and every entry the classifier found is in
    the bundle unless it is named [logger]. *)
Theorem discovered_entries_kept fuel rt func variables b :
  scrape_func fuel rt func variables = Ok b →
  ∃ g found new_variables processed' inlined_modules class_info,
    context_globals_of rt (rt_obj rt func) = Ok g ∧
    get_obj_dependencies fuel rt g (fn_code b) ∅ = Ok (found, new_variables, processed') ∧
    for_each (inline_variable rt g) (found, None)
      (filter (λ v, contains (var_target v) (fn_code b) = true) variables ++ new_variables)
      = Ok (inlined_modules, class_info) ∧
    (∀ m, m ∈ found → mi_name m ≠ "logger" → m ∈ bundle_entries b).
Proof.
  intros (code & name & g & ms & used & ms' & ci & Hc & Hloop & Hpart)%scrape_func_stages.
  apply collect_dependencies_Ok in Hc
    as (source & vs & p & Hsource & -> & Hname & Hglobals & Hgod & ->).
  pose proof (partition_modules_lists _ _ _ _ Hpart) as (Hcode & _ & Hcover & _).
  rewrite Hcode. exists g, ms, vs, p, ms', ci. split_and!; [done..|].
  intros m Hm Hlogger. apply Hcover. split; [|done].
  apply for_each_inline_extends in Hloop as (extra & ->). apply elem_of_app. by left.
Qed.

Lemma discovered_entries_kept_witness :
  ∃ g found new_variables processed' inlined_modules class_info,
    context_globals_of (config_rt settings_files) (rt_obj (config_rt settings_files) 0) = Ok g ∧
    get_obj_dependencies 2 (config_rt settings_files) g (fn_code settings_bundle) ∅
      = Ok (found, new_variables, processed') ∧
    for_each (inline_variable (config_rt settings_files) g) (found, None)
      (filter (λ v, contains (var_target v) (fn_code settings_bundle) = true) config_variables
       ++ new_variables)
      = Ok (inlined_modules, class_info) ∧
    (∀ m, m ∈ found → mi_name m ≠ "logger" → m ∈ bundle_entries settings_bundle).
Proof.
  apply (discovered_entries_kept 2 (config_rt settings_files) 0 config_variables).
  vm_compute. reflexivity.
Defined.

(** *** Decorator lines *)

Lemma rev_app_rev_app l : ∀ cur acc,
  String.rev_app (String.rev_app l cur) acc = String.rev_app cur (l +:+ acc).
Proof.
  induction l as [|c l IH]; intros cur acc; [done|].
  cbn [String.rev_app]. rewrite IH. by rewrite append_cons.
Qed.

Lemma rev_rev_app l : String.rev (String.rev_app l "") = l.
Proof. unfold String.rev. by rewrite rev_app_rev_app, append_nil_r. Qed.

Lemma rev_app_append cur : ∀ acc, String.rev_app cur acc = String.rev cur +:+ acc.
Proof.
  unfold String.rev. induction cur as [|c cur IH]; intros acc; [done|].
  cbn [String.rev_app]. rewrite (IH (String c acc)), (IH (String c "")).
  by rewrite append_assoc.
Qed.

Lemma rev_cons c cur : String.rev (String c cur) = String.rev cur +:+ String c "".
Proof. unfold String.rev at 1. cbn [String.rev_app]. apply rev_app_append. Qed.

Ltac linebreak_cases :=
  unfold linebreak_len; rewrite ?append_cons;
  repeat (case_bool_decide; simplify_eq/=; try done; try lia).

(** A line feed after a text adds no boundary within the text. *)
Lemma linebreak_len_before_newline c x s :
  linebreak_len (String c x) = 0 →
  linebreak_len (String c x +:+ String "010" s) = 0.
Proof.
  destruct x as [|c1 [|c2 x]]; [destruct s|..]; linebreak_cases.
Qed.

(** No boundary starts a text that starts none when more text follows. *)
Lemma linebreak_len_alone c x s :
  linebreak_len (String c x +:+ s) = 0 → linebreak_len (String c x) = 0.
Proof.
  destruct x as [|c1 [|c2 x]]; [destruct s as [|? [|? ?]]|destruct s|]; linebreak_cases.
Qed.

Lemma no_linebreak_before_newline l s :
  no_linebreak l = true → no_linebreak_before (String "010" s) l = true.
Proof.
  unfold no_linebreak. induction l as [|c l IH]; [done|].
  cbn [no_linebreak_before]. intros [Hc Hl]%andb_prop.
  apply bool_decide_eq_true in Hc. rewrite append_nil_r in Hc.
  apply andb_true_intro. split; [|by apply IH].
  apply bool_decide_eq_true. by apply linebreak_len_before_newline.
Qed.

Lemma no_linebreak_before_alone l s :
  no_linebreak_before s l = true → no_linebreak l = true.
Proof.
  unfold no_linebreak. induction l as [|c l IH]; [done|].
  cbn [no_linebreak_before]. intros [Hc Hl]%andb_prop.
  apply bool_decide_eq_true in Hc.
  apply andb_true_intro. split; [|by apply IH].
  apply bool_decide_eq_true. rewrite append_nil_r. by eapply linebreak_len_alone.
Qed.

Lemma no_linebreak_before_snoc l c s :
  no_linebreak_before (String c s) l = true →
  linebreak_len (String c s) = 0 →
  no_linebreak_before s (l +:+ String c "") = true.
Proof.
  intros Hl Hc. induction l as [|a l IH].
  - change ("" +:+ String c "") with (String c ""). cbn [no_linebreak_before].
    change (String c "" +:+ s) with (String c s).
    rewrite bool_decide_true by done. done.
  - cbn [no_linebreak_before] in Hl. apply andb_prop in Hl as [Ha Hl].
    rewrite append_cons. cbn [no_linebreak_before].
    apply andb_true_intro. split; [|by apply IH].
    rewrite <- append_cons, append_assoc.
    change (String c "" +:+ s) with (String c s). exact Ha.
Qed.

Lemma splitlines_from_line l : ∀ cur s,
  no_linebreak_before (String "010" s) l = true →
  splitlines_from 0 cur (l +:+ String "010" s) =
  String.rev (String.rev_app l cur) :: splitlines_from 0 "" s.
Proof.
  induction l as [|c l IH]; intros cur s Hl.
  - change ("" +:+ String "010" s) with (String "010" s). done.
  - cbn [no_linebreak_before] in Hl. apply andb_prop in Hl as [Hc Hl].
    apply bool_decide_eq_true in Hc. rewrite append_cons in Hc.
    rewrite append_cons. cbn [splitlines_from String.rev_app]. rewrite Hc.
    by apply IH.
Qed.

Lemma splitlines_from_last l : ∀ cur,
  no_linebreak l = true →
  splitlines_from 0 cur l =
  if bool_decide (String.rev_app l cur = "") then []
  else [String.rev (String.rev_app l cur)].
Proof.
  unfold no_linebreak. induction l as [|c l IH]; intros cur Hl; [done|].
  cbn [no_linebreak_before] in Hl. apply andb_prop in Hl as [Hc Hl].
  apply bool_decide_eq_true in Hc. rewrite append_nil_r in Hc.
  cbn [splitlines_from String.rev_app]. rewrite Hc. by apply IH.
Qed.

(** No line boundary starts within a line of [str.splitlines]. *)
Lemma splitlines_from_no_linebreak s : ∀ skip cur,
  (skip = 0 → no_linebreak_before s (String.rev cur) = true) →
  (skip ≠ 0 → cur = "") →
  Forall (λ line, no_linebreak line = true) (splitlines_from skip cur s).
Proof.
  induction s as [|c s IH]; intros skip cur Hcur Hskip.
  - cbn [splitlines_from]. case_bool_decide; [constructor|].
    apply Forall_singleton. destruct skip as [|skip]; [by apply Hcur|].
    by rewrite Hskip in *.
  - cbn [splitlines_from]. destruct skip as [|skip].
    + specialize (Hcur eq_refl).
      destruct (linebreak_len (String c s)) as [|k] eqn:Hc.
      * apply IH; [|done]. intros _. rewrite rev_cons.
        by apply no_linebreak_before_snoc.
      * apply Forall_cons. split; [by eapply no_linebreak_before_alone|].
        apply IH; [done|done].
    + rewrite Hskip by done. apply IH; [done|done].
Qed.

Lemma splitlines_join ls :
  Forall (λ line, no_linebreak line = true) ls →
  ∀ x, x ∈ splitlines (join newline ls) → x ∈ ls.
Proof.
  unfold splitlines. induction ls as [|p ls IH]; intros Hls x; [done|].
  apply Forall_cons in Hls as [Hp Hls].
  destruct ls as [|q ls].
  - cbn [join]. rewrite splitlines_from_last by done. rewrite rev_rev_app.
    case_bool_decide; [by intros ?%elem_of_nil|done].
  - rewrite join_cons. unfold newline at 1.
    change (String "010" "" +:+ join newline (q :: ls))
      with (String "010" (join newline (q :: ls))).
    rewrite splitlines_from_line by (by apply no_linebreak_before_newline).
    rewrite rev_rev_app.
    intros [->|Hin]%elem_of_cons; [by left|]. right. by apply IH.
Qed.

(** X15.  The code [scrape_func] returns has no decorator line: each of its
    lines, as [str.splitlines] cuts them, is a line of the definition text
    that does not start, after white space, with [@]. *)
Theorem strip_decorators_lines (source : string) :
  ∀ line, line ∈ splitlines (strip_decorators source) →
          line ∈ splitlines source ∧ is_decorator_line line = false.
Proof.
  intros line Hin. unfold strip_decorators in Hin.
  apply splitlines_join in Hin.
  - by apply list_elem_of_filter in Hin as [? ?].
  - apply Forall_forall. intros x [_ Hx]%list_elem_of_filter.
    pose proof (splitlines_from_no_linebreak source 0 "") as Hall.
    rewrite Forall_forall in Hall. by apply Hall.
Qed.

Lemma strip_decorators_lines_witness :
  "def f(): pass" ∈
    splitlines (no_break_space +:+ "@deco" +:+ line_separator +:+ "def f(): pass") ∧
  is_decorator_line "def f(): pass" = false.
Proof.
  apply (strip_decorators_lines
           (no_break_space +:+ "@deco" +:+ line_separator +:+ "def f(): pass")).
  vm_compute. left.
Defined.

(** A decorator line that starts with a no-break space and ends at a line
    separator is dropped, and a line separator within a text cuts it. *)
Lemma strip_decorators_separator :
  strip_decorators (no_break_space +:+ "@deco" +:+ line_separator +:+ "def f(): pass") =
    "def f(): pass" ∧
  strip_decorators ("def f(): return 1" +:+ line_separator +:+ "@x") = "def f(): return 1".
Proof. split; reflexivity. Qed.

(** ** The parameters of a function *)

Lemma scrape_func_params_writes parameters :
  scrape_func_params parameters =
  foldl write [] (map (λ p, (param_name p, param_info_of p))
                      (filter (λ p, param_name p ≠ "self") parameters)).
Proof.
  unfold scrape_func_params. generalize (@nil (string * param_info)).
  induction parameters as [|p ps IH]; intros d; [done|]. cbn [foldl].
  case_bool_decide as Hself.
  - rewrite filter_cons_True by exact Hself. cbn [map foldl]. apply IH.
  - rewrite filter_cons_False by (intros Hne; exact (Hne Hself)). apply IH.
Qed.

Lemma NoDup_filter_map {A B} `{EqDecision B} (f : A → B) (P : A → Prop)
    `{∀ x, Decision (P x)} (l : list A) :
  NoDup (map f l) → NoDup (map f (filter P l)).
Proof.
  induction l as [|a l IH]; [done|]. cbn [map]. intros [Ha Hl]%NoDup_cons.
  destruct (decide (P a)).
  - rewrite filter_cons_True by done. cbn [map]. apply NoDup_cons. split; [|by apply IH].
    intros (x & Hx & [_ Hin]%list_elem_of_filter)%list_elem_of_fmap.
    apply Ha. apply list_elem_of_fmap. by exists x.
  - rewrite filter_cons_False by done. by apply IH.
Qed.

Lemma remove_dups_NoDup {A} `{EqDecision A} (l : list A) : NoDup l → remove_dups l = l.
Proof.
  induction l as [|x l IH]; [done|]. intros [Hx Hl]%NoDup_cons. cbn [remove_dups].
  destruct (decide_rel elem_of x l); [done|]. by rewrite IH.
Qed.

(** X16.  [scrape_func_params] never records [self].  For a signature, whose
    parameter names are distinct, it records the other parameters in their
    order, each with its default and its annotation, [None] standing for
    one that is missing. *)
Theorem scrape_func_params_entries parameters :
  NoDup (map param_name parameters) →
  ("self" ∉ map fst (scrape_func_params parameters)) ∧
  map fst (scrape_func_params parameters) =
    filter (λ n, n ≠ "self") (map param_name parameters) ∧
  (∀ p, p ∈ parameters → param_name p ≠ "self" →
        dict_get (param_name p) (scrape_func_params parameters) = Some (param_info_of p)).
Proof.
  intros Hnd. rewrite scrape_func_params_writes.
  set (kept := filter (λ p, param_name p ≠ "self") parameters).
  assert (Hkept : NoDup (map param_name kept)).
  { by apply NoDup_filter_map. }
  assert (Hkeys : map fst (foldl write [] (map (λ p, (param_name p, param_info_of p)) kept))
                  = map param_name kept).
  { rewrite foldl_write_keys, map_map. cbn [fst].
    rewrite remove_dups_NoDup; [apply reverse_involutive|].
    by rewrite reverse_Permutation. }
  split_and!.
  - rewrite Hkeys. intros (p & Hp & [Hself _]%list_elem_of_filter)%list_elem_of_fmap.
    by apply Hself.
  - rewrite Hkeys. unfold kept. clear. induction parameters as [|p ps IH]; [done|].
    cbn [map]. destruct (decide (param_name p = "self")) as [Heq|Hne].
    + rewrite !filter_cons_False by (by intros ?). done.
    + rewrite !filter_cons_True by done. cbn [map]. by rewrite IH.
  - intros p Hp Hself. apply dict_get_elem; [rewrite Hkeys; done|].
    apply foldl_write_last.
    assert (Hin : p ∈ kept).
    { by apply list_elem_of_filter. }
    apply list_elem_of_split in Hin as (pre & post & Heq).
    exists (map (λ p, (param_name p, param_info_of p)) pre),
           (map (λ p, (param_name p, param_info_of p)) post).
    split; [by rewrite Heq, map_app|].
    rewrite map_map. cbn [fst]. rewrite Heq, map_app in Hkept. cbn [map] in Hkept.
    apply NoDup_app in Hkept as (_ & _ & Hkept). by apply NoDup_cons in Hkept as [? _].
Qed.

Lemma scrape_func_params_entries_witness :
  ("self" ∉ map fst (scrape_func_params call_signature)) ∧
  map fst (scrape_func_params call_signature) =
    filter (λ n, n ≠ "self") (map param_name call_signature) ∧
  (∀ p, p ∈ call_signature → param_name p ≠ "self" →
        dict_get (param_name p) (scrape_func_params call_signature) = Some (param_info_of p)).
Proof.
  apply (scrape_func_params_entries call_signature).
  by apply (bool_decide_unpack _).
Defined.

(** X17.  [scrape_func_params] does not tell a default of [None] from no
    default, nor an annotation of [None] from no annotation. *)
Theorem scrape_func_params_none parameters :
  scrape_func_params (map without_none parameters) = scrape_func_params parameters.
Proof.
  unfold scrape_func_params. generalize (@nil (string * param_info)).
  induction parameters as [|p ps IH]; intros d; [done|]. cbn [map foldl].
  rewrite IH. f_equal. cbn [without_none param_name].
  case_bool_decide; [|done]. f_equal. unfold param_info_of, without_none. cbn.
  by destruct (param_default p) as [[]|], (param_annotation p) as [[]|].
Qed.

(** ** The parameters of a command *)

Lemma split_on_length sep s : length (split_on sep s) = S (count_char sep s).
Proof.
  induction s as [|c s IH]; [done|]. cbn [split_on count_char].
  case_bool_decide; cbn [length]; [by rewrite IH|].
  destruct (split_on sep s) as [|piece pieces]; simpl in *; lia.
Qed.

Lemma split_on_none sep s : count_char sep s = 0 → split_on sep s = [s].
Proof.
  induction s as [|c s IH]; [done|]. cbn [split_on count_char].
  case_bool_decide; [done|]. intros Hs. by rewrite IH.
Qed.

Lemma split_on_first sep key value :
  count_char sep key = 0 →
  split_on sep (key +:+ String sep value) = key :: split_on sep value.
Proof.
  induction key as [|c key IH].
  - intros _. change ("" +:+ String sep value) with (String sep value).
    cbn [split_on]. by rewrite bool_decide_true.
  - cbn [count_char]. rewrite append_cons. cbn [split_on].
    case_bool_decide; [done|]. intros Hs. by rewrite IH.
Qed.

Lemma parse_params_step d param rest :
  parse_params_from d (param :: rest) =
  match split_on "=" param with
  | [key; value] => parse_params_from (dict_set key value d) rest
  | _ => None
  end.
Proof. reflexivity. Qed.

Lemma parse_params_from_Some params : ∀ d,
  is_Some (parse_params_from d params) ↔ Forall (λ p, count_char "=" p = 1) params.
Proof.
  induction params as [|p ps IH]; intros d.
  - split; [constructor|by eexists].
  - rewrite parse_params_step, Forall_cons.
    pose proof (split_on_length "=" p) as Hlen.
    destruct (split_on "=" p) as [|key [|value [|extra pieces]]]; simpl in Hlen.
    + lia.
    + split; [by intros [? ?]|]. intros [? _]. lia.
    + rewrite IH. split; [intros ?; split; [lia|done]|by intros [_ ?]].
    + split; [by intros [? ?]|]. intros [? _]. lia.
Qed.

(** X18.  The [key=value] words of a command are accepted exactly when each
    holds one [=]: a word without one, or with a second one in its value,
    makes the unpacking raise [ValueError]. *)
Theorem parse_params_accepts params :
  is_Some (parse_params params) ↔ Forall (λ p, count_char "=" p = 1) params.
Proof. apply parse_params_from_Some. Qed.

Lemma parse_params_from_pairs kvs : ∀ d,
  Forall (λ kv, count_char "=" kv.1 = 0 ∧ count_char "=" kv.2 = 0) kvs →
  parse_params_from d (map (λ kv, kv.1 +:+ String "=" kv.2) kvs) = Some (foldl write d kvs).
Proof.
  induction kvs as [|[k v] kvs IH]; intros d Hall; [done|].
  apply Forall_cons in Hall as [[Hk Hv] Hall]. cbn [map fst snd] in *.
  rewrite parse_params_step, split_on_first, split_on_none by done.
  cbn [foldl]. by apply IH.
Qed.

(** X19.  Words built from keys and values that hold no [=] are read back:
    the dictionary holds, for each key, the value of its last word, at the
    place of its first. *)
Theorem parse_params_pairs kvs :
  Forall (λ kv, count_char "=" kv.1 = 0 ∧ count_char "=" kv.2 = 0) kvs →
  parse_params (map (λ kv, kv.1 +:+ String "=" kv.2) kvs) = Some (foldl write [] kvs) ∧
  (∀ k v, (k, v) ∈ foldl write [] kvs ↔
          ∃ pre post, kvs = pre ++ (k, v) :: post ∧ k ∉ map fst post) ∧
  map fst (foldl write [] kvs) = reverse (remove_dups (reverse (map fst kvs))).
Proof.
  intros Hall. split_and!.
  - by apply parse_params_from_pairs.
  - intros k v. apply foldl_write_last.
  - apply foldl_write_keys.
Qed.

Lemma parse_params_pairs_witness :
  parse_params (map (λ kv, kv.1 +:+ String "=" kv.2)
                    [("description", "demo"); ("version", "1"); ("version", "2")])
    = Some (foldl write [] [("description", "demo"); ("version", "1"); ("version", "2")]) ∧
  (∀ k v, (k, v) ∈ foldl write [] [("description", "demo"); ("version", "1"); ("version", "2")] ↔
          ∃ pre post, [("description", "demo"); ("version", "1"); ("version", "2")]
                      = pre ++ (k, v) :: post ∧ k ∉ map fst post) ∧
  map fst (foldl write [] [("description", "demo"); ("version", "1"); ("version", "2")])
    = reverse (remove_dups (reverse (map fst
        [("description", "demo"); ("version", "1"); ("version", "2")]))).
Proof.
  apply (parse_params_pairs [("description", "demo"); ("version", "1"); ("version", "2")]).
  repeat constructor.
Defined.
